(** * check_mobileprovisions.py: a shallow embedding

    The script walks a directory tree, decodes every provisioning profile
    (standalone or embedded in an [.ipa] archive) with the external
    [security cms] tool, parses the decoded property list and prints whether
    the profile is expired.

    The embedding threads an explicit world (file system and printed lines)
    through a state-and-exception monad.  The external tool and the clock are
    Section variables: every theorem holds for any behaviour of the tool and
    any captured instant, unless a hypothesis says otherwise. *)

From Stdlib Require Import ZArith Ascii String.
From stdpp Require Import base option list strings gmap pretty.

Local Open Scope Z_scope.

(** ** Python strings and [os.path] *)

Module Py.

Definition chars (s : string) : list ascii := String.list_ascii_of_string s.

(** [s.endswith(suffix)] and [s.startswith(prefix)]. *)
Definition endswith (s suffix : string) : bool :=
  bool_decide (chars suffix `suffix_of` chars s).
Definition startswith (s pre : string) : bool :=
  bool_decide (chars pre `prefix_of` chars s).

(** [s.split('/')]: never empty, keeps empty components. *)
Fixpoint split_sep (s : string) : list string :=
  match s with
  | EmptyString => [""]
  | String c r =>
      if Ascii.eqb c "/" then "" :: split_sep r
      else match split_sep r with
           | h :: t => String c h :: t
           | [] => [String c ""]
           end
  end.

(** [os.path.basename(p)] is [p[p.rfind('/')+1:]]: the last component. *)
Definition os_path_basename (p : string) : string :=
  default "" (last (split_sep p)).

(** [s.rstrip('/')]. *)
Fixpoint rstrip_sep (s : string) : string :=
  match s with
  | EmptyString => ""
  | String c r =>
      match rstrip_sep r with
      | EmptyString => if Ascii.eqb c "/" then "" else String c ""
      | r' => String c r'
      end
  end.

(** [os.path.join(a, b)] of posixpath. *)
Definition os_path_join (a b : string) : string :=
  if startswith b "/" then b
  else if bool_decide (a = "") || endswith a "/" then a +:+ b
  else a +:+ "/" +:+ b.

(** Components that name no directory entry of their own. *)
Definition is_dot (c : string) : bool :=
  bool_decide (c = "") || bool_decide (c = ".").
Definition invalid_path_part (c : string) : bool :=
  is_dot c || bool_decide (c = "..").

(** A location in the file system is the list of components that the kernel
    reaches from the working directory ([[]]); an absolute path starts with
    the component ["/"].  [".."] is resolved lexically, as by
    [os.path.normpath] (there are no symbolic links in the model); that
    is where the kernel arrives when every [".."] is taken from an
    existing directory, which [Lib.walk_error] checks for the one path of
    the script that can hold such a component. *)
Definition loc := list string.

Definition norm_step (rstack : list string) (c : string) : list string :=
  if is_dot c then rstack
  else if bool_decide (c = "..") then
    match rstack with
    | [] => [".."]
    | h :: t =>
        if bool_decide (h = "..") then ".." :: rstack
        else if bool_decide (h = "/") then rstack
        else t
    end
  else c :: rstack.

Definition resolve (p : string) : loc :=
  reverse (fold_left norm_step (split_sep p)
             (if startswith p "/" then ["/"] else [])).

Definition parent (k : loc) : loc := removelast k.

Global Arguments resolve : simpl never.
Global Arguments parent : simpl never.
Global Arguments os_path_join : simpl never.
Global Arguments os_path_basename : simpl never.
Global Arguments endswith : simpl never.

End Py.
Export Py.

(** ** Data model *)

(** A naive [datetime], as a count of microseconds. *)
Definition datetime := Z.

(** The values [plistlib.load] returns (reals are left out of the model). *)
Local Unset Elimination Schemes.
Inductive plist_value :=
  | PDict (d : gmap string plist_value)
  | PArray (l : list plist_value)
  | PString (s : string)
  | PInt (z : Z)
  | PBool (b : bool)
  | PData (bytes : string)
  | PDate (t : datetime).

(** What a regular file holds, seen through the parsers the script applies
    to it: a property list, a zip archive with its members in directory
    order ([None] for a member whose data fails its integrity check at
    the first read), or bytes that are neither. *)
Inductive content :=
  | Blob (bytes : string)
  | PlistDoc (v : plist_value)
  | ZipArchive (members : list (string * option content)).
Local Set Elimination Schemes.

Inductive node :=
  | File (c : content)
  | Dir.

(** Exceptions, all subclasses of [Exception]. *)
Inductive exn :=
  | CalledProcessError (stderr : string)
  | FileNotFoundError (p : string)
  | IsADirectoryError (p : string)
  | NotADirectoryError (p : string)
  | FileExistsError (p : string)
  | OSError (msg : string)
  | ShutilError (msg : string)
  | BadZipFile (msg : string)
  | InvalidFileException
  | TypeError (msg : string)
  | AttributeError (msg : string)
  | ValueError (msg : string).

(** The printed lines, one constructor per [print] of the script.  The
    object [plist_data.get(...)] returns is [None] or a plist value. *)
Inductive line :=
  | ErrorDecoding (file_path stderr : string)
  | FailedToDecode (file_path : string)
  | NoExpirationDate (file_path : string)
  | Verdict (file_path status : string) (expiration_date : option plist_value)
  | ErrorProcessing (file_path : string) (e : exn)
  | NoEmbedded (ipa_path : string)
  | ErrorExtracting (ipa_path : string) (e : exn).

Record world := World {
  fs : gmap loc node;
  out : list line;
}.

Definition set_fs (f : gmap loc node) (w : world) : world :=
  World f (out w).

(** The working directory always exists. *)
Definition node_at (f : gmap loc node) (k : loc) : option node :=
  match k with
  | [] => Some Dir
  | _ => f !! k
  end.

Definition is_dir (f : gmap loc node) (k : loc) : bool :=
  match node_at f k with Some Dir => true | _ => false end.
Definition is_file (f : gmap loc node) (k : loc) : bool :=
  match node_at f k with Some (File _) => true | _ => false end.
Definition exists_at (f : gmap loc node) (k : loc) : bool :=
  match node_at f k with Some _ => true | None => false end.
Global Arguments node_at : simpl never.

(** ** The monad: state, and exceptions as results *)

Inductive result (A : Type) :=
  | Ok (a : A)
  | Raise (e : exn).
Arguments Ok {A} a.
Arguments Raise {A} e.

Definition M (A : Type) : Type := world → result A * world.

Global Instance M_ret : MRet M := λ A a w, (Ok a, w).
Global Instance M_bind : MBind M := λ A B k m w,
  match m w with
  | (Ok a, w') => k a w'
  | (Raise e, w') => (Raise e, w')
  end.

Definition raise {A} (e : exn) : M A := λ w, (Raise e, w).
Definition get_fs : M (gmap loc node) := λ w, (Ok (fs w), w).
Definition put_fs (f : gmap loc node) : M unit := λ w, (Ok (), set_fs f w).
Definition print (l : line) : M unit := λ w, (Ok (), World (fs w) (out w ++ [l])).

(** [try: body except <caught> as e: handler e]. *)
Definition try_except {A} (body : M A) (caught : exn → bool)
    (handler : exn → M A) : M A := λ w,
  match body w with
  | (Raise e, w') => if caught e then handler e w' else (Raise e, w')
  | r => r
  end.

(** [try: body finally: final]; an exception of [final] replaces the
    outcome of [body]. *)
Definition try_finally {A} (body : M A) (final : M unit) : M A := λ w,
  match body w with
  | (r, w') =>
      match final w' with
      | (Ok _, w'') => (r, w'')
      | (Raise e, w'') => (Raise e, w'')
      end
  end.

Definition is_Exception (e : exn) : bool := true.
Definition is_CalledProcessError (e : exn) : bool :=
  match e with CalledProcessError _ => true | _ => false end.

(** [for x in xs: body x]. *)
Fixpoint for_each {A} (xs : list A) (body : A → M unit) : M unit :=
  match xs with
  | [] => mret ()
  | x :: rest => body x;; for_each rest body
  end.

(** ** The library calls the script makes *)

Module Lib.

Definition os_path_exists (p : string) : M bool :=
  f ← get_fs; mret (exists_at f (resolve p)).

Definition os_path_isdir (p : string) : M bool :=
  f ← get_fs; mret (is_dir f (resolve p)).

(** [os.remove(p)]: unlinks a regular file. *)
Definition os_remove (p : string) : M unit :=
  f ← get_fs;
  match node_at f (resolve p) with
  | Some (File _) => put_fs (delete (resolve p) f)
  | Some Dir => raise (IsADirectoryError p)
  | None => raise (FileNotFoundError p)
  end.

(** [open(p, "rb").read()]. *)
Definition open_rb (p : string) : M content :=
  f ← get_fs;
  match node_at f (resolve p) with
  | Some (File c) => mret c
  | Some Dir => raise (IsADirectoryError p)
  | None => raise (FileNotFoundError p)
  end.

(** [open(k, "wb").write(c)] at a location: the parent must be a directory
    and the target must not be one. *)
Definition write_file (k : loc) (c : content) : M unit :=
  f ← get_fs;
  if negb (is_dir f (parent k)) then raise (FileNotFoundError "")
  else if is_dir f k then raise (IsADirectoryError "")
  else put_fs (<[k := File c]> f).

Definition plistlib_load (c : content) : M plist_value :=
  match c with
  | PlistDoc v => mret v
  | _ => raise InvalidFileException
  end.

(** [plist_data.get(key)]: only a dict has the method. *)
Definition dict_get (v : plist_value) (key : string) : M (option plist_value) :=
  match v with
  | PDict d => mret (d !! key)
  | _ => raise (AttributeError "get")
  end.

(** Truth value of [plist_data.get(key)]; a [datetime] is always true. *)
Definition truthy (v : option plist_value) : bool :=
  match v with
  | None => false
  | Some (PDict d) => negb (bool_decide (d = ∅))
  | Some (PArray l) => negb (bool_decide (length l = 0%nat))
  | Some (PString s) => negb (bool_decide (s = ""))
  | Some (PInt z) => negb (bool_decide (z = 0))
  | Some (PBool b) => b
  | Some (PData s) => negb (bool_decide (s = ""))
  | Some (PDate _) => true
  end.

(** [v < now] for a [datetime] [now]: defined between datetimes only. *)
Definition lt_datetime (v : option plist_value) (now : datetime) : M bool :=
  match v with
  | Some (PDate t) => mret (t <? now)
  | _ => raise (TypeError "'<' not supported")
  end.

(** All locations at or below [k]. *)
Definition below (k : loc) (k' : loc) : bool := bool_decide (k `prefix_of` k').

(** [shutil.rmtree(p)]. *)
Definition shutil_rmtree (p : string) : M unit :=
  f ← get_fs;
  match node_at f (resolve p) with
  | Some Dir => put_fs (filter (λ kn, below (resolve p) kn.1 = false) f)
  | Some (File _) => raise (NotADirectoryError p)
  | None => raise (FileNotFoundError p)
  end.

(** Creates every missing directory on the way to [k] and [k] itself. *)
Fixpoint mkdirs_from (pre : loc) (rest : loc) (f : gmap loc node)
    : result (gmap loc node) :=
  match rest with
  | [] => Ok f
  | c :: rest' =>
      let k := pre ++ [c] in
      match node_at f k with
      | Some (File _) => Raise (NotADirectoryError "")
      | Some Dir => mkdirs_from k rest' f
      | None => mkdirs_from k rest' (<[k := Dir]> f)
      end
  end.

(** [os.makedirs(k, exist_ok)] at a location. *)
Definition makedirs_at (k : loc) (exist_ok : bool) : M unit :=
  f ← get_fs;
  if exists_at f k && negb (exist_ok && is_dir f k)
  then raise (FileExistsError "")
  else match mkdirs_from [] k f with
       | Ok f' => put_fs f'
       | Raise e => raise e
       end.

Definition os_makedirs (p : string) : M unit := makedirs_at (resolve p) false.

(** [os.rename] between locations.  A directory moves with everything
    below it. *)
Definition rekey (src dst : loc) (f : gmap loc node) : gmap loc node :=
  list_to_map
    (omap (λ kn : loc * node,
             if below src kn.1 then Some (dst ++ drop (length src) kn.1, kn.2)
             else None)
          (map_to_list f))
  ∪ filter (λ kn, below src kn.1 = false) f.

Definition has_entries (f : gmap loc node) (k : loc) : bool :=
  bool_decide (Exists (λ kn : loc * node, kn.1 ≠ k ∧ k `prefix_of` kn.1)
                 (map_to_list f)).

Definition rename_at (src dst : loc) : M unit :=
  f ← get_fs;
  match node_at f src with
  | None => raise (FileNotFoundError "")
  | Some (File c) =>
      if negb (is_dir f (parent dst)) then raise (FileNotFoundError "")
      else if is_dir f dst then raise (IsADirectoryError "")
      else put_fs (<[dst := File c]> (delete src f))
  | Some Dir =>
      if bool_decide (src = dst) then mret ()
      else if negb (is_dir f (parent dst)) then raise (FileNotFoundError "")
      else if below src dst then raise (OSError "EINVAL")
      else if is_file f dst then raise (NotADirectoryError "")
      else if has_entries f dst
      then raise (OSError "ENOTEMPTY")
      else put_fs (rekey src dst f)
  end.

(** The kernel looks every component of a path up in the directory
    reached so far, so that it takes a [..] only from an existing
    directory, where [resolve] steps back without looking.  [walk_error f p]
    is the error of the first [..] of [p] that the kernel cannot take.  The
    script builds one path that can hold such a component: the source of
    its [shutil.move], made of a member name of the archive. *)
Fixpoint walk_from (f : gmap loc node) (rstack : list string)
    (cs : list string) : option exn :=
  match cs with
  | [] => None
  | c :: cs' =>
      let stepped :=
        match rstack with
        | h :: _ =>
            bool_decide (c = "..")
            && negb (bool_decide (h = "..") || bool_decide (h = "/"))
        | [] => false
        end in
      if stepped then
        match node_at f (reverse rstack) with
        | Some Dir => walk_from f (norm_step rstack c) cs'
        | Some (File _) => Some (NotADirectoryError "")
        | None => Some (FileNotFoundError "")
        end
      else walk_from f (norm_step rstack c) cs'
  end.

Definition walk_error (f : gmap loc node) (p : string) : option exn :=
  walk_from f (if startswith p "/" then ["/"] else []) (split_sep p).

(** [shutil.move(src, dst)]: into [dst] when it is an existing directory,
    refusing to replace an entry there; otherwise a rename onto [dst].
    Within one file system the copying fall-back of [shutil.move] fails
    whenever the rename does, so a failed rename is an exception.  A
    source that the kernel cannot walk is the same file as nothing and
    cannot be renamed. *)
Definition shutil_move (src dst : string) : M unit :=
  f ← get_fs;
  match walk_error f src with
  | Some e =>
      if is_dir f (resolve dst)
         && exists_at f (resolve (os_path_join dst
                                    (os_path_basename (rstrip_sep src))))
      then raise (ShutilError "Destination path already exists")
      else raise e
  | None =>
      if is_dir f (resolve dst) then
        if bool_decide (resolve src = resolve dst)
        then rename_at (resolve src) (resolve dst)
        else
          let real_dst := os_path_join dst (os_path_basename (rstrip_sep src)) in
          if exists_at f (resolve real_dst)
          then raise (ShutilError "Destination path already exists")
          else rename_at (resolve src) (resolve real_dst)
      else rename_at (resolve src) (resolve dst)
  end.

(** *** zipfile *)

Definition zip := list (string * option content).

(** [zipfile.ZipFile(p, 'r')]. *)
Definition ZipFile (p : string) : M zip :=
  f ← get_fs;
  match node_at f (resolve p) with
  | Some (File (ZipArchive ms)) => mret ms
  | Some (File _) => raise (BadZipFile "File is not a zip file")
  | Some Dir => raise (IsADirectoryError p)
  | None => raise (FileNotFoundError p)
  end.

Definition namelist (z : zip) : list string := z.*1.

(** [getinfo(name)]: of several members with one name the last one. *)
Definition getinfo (z : zip) (name : string) : option (option content) :=
  snd <$> last (filter (λ m, m.1 = name) z).

(** The member name with every empty, [.] and [..] component removed. *)
Definition arcname (name : string) : list string :=
  filter (λ c, invalid_path_part c = false) (split_sep name).

(** [z.extract(name, path)] for a member that is not a directory entry.
    The target is opened for writing before the member's data is read: a
    member whose data fails its check at the first read leaves an empty
    file there. *)
Definition zip_extract (z : zip) (name path : string) : M unit :=
  match getinfo z name with
  | None => raise (ValueError "There is no item named")
  | Some data =>
      if bool_decide (arcname name = []) then raise (ValueError "Empty filename.")
      else
        let targetpath := resolve path ++ arcname name in
        let upperdirs := parent targetpath in
        f ← get_fs;
        (if exists_at f upperdirs then mret () else makedirs_at upperdirs true);;
        match data with
        | None =>
            write_file targetpath (Blob "");;
            raise (BadZipFile "cannot read member")
        | Some c => write_file targetpath c
        end
  end.

End Lib.
Export Lib.

(** ** The script *)

(** How [subprocess.run([...], check=True, capture_output=True, text=True)]
    ends: the tool ran and exited, or it could not be started at all. *)
Inductive run_outcome :=
  | Completed (returncode : Z) (stderr : string)
  | NotStarted (e : exn).

Definition ROOT_DIR : string := ".".
Definition TEMP_DIR : string := "temp_extracted".

Section Script.

(** [CURRENT_DATE = datetime.now()], evaluated once when the module loads. *)
Variable CURRENT_DATE : datetime.

(** The external tool [security cms -D -i file_path -o output_path]: any
    function of its arguments and the file system, to an outcome and a new
    file system. *)
Variable security_cms :
  string → string → gmap loc node → run_outcome * gmap loc node.

Definition subprocess_run (file_path output_path : string) : M unit :=
  f ← get_fs;
  let r := security_cms file_path output_path f in
  put_fs r.2;;
  match r.1 with
  | Completed returncode stderr =>
      if bool_decide (returncode = 0) then mret ()
      else raise (CalledProcessError stderr)
  | NotStarted e => raise e
  end.

Definition stderr_of (e : exn) : string :=
  match e with CalledProcessError s => s | _ => "" end.

Definition decode_mobileprovision (file_path output_path : string) : M bool :=
  try_except
    (subprocess_run file_path output_path;; mret true)
    is_CalledProcessError
    (λ e, print (ErrorDecoding file_path (stderr_of e));; mret false).

Definition check_expiry (file_path : string) : M unit :=
  let temp_plist := file_path +:+ ".plist" in
  decoded ← decode_mobileprovision file_path temp_plist;
  if negb decoded then print (FailedToDecode file_path)
  else
    try_finally
      (try_except
         (f ← open_rb temp_plist;
          plist_data ← plistlib_load f;
          expiration_date ← dict_get plist_data "ExpirationDate";
          if negb (truthy expiration_date)
          then print (NoExpirationDate file_path)
          else
            is_expired ← lt_datetime expiration_date CURRENT_DATE;
            let status := if is_expired : bool then "EXPIRED" else "VALID" in
            print (Verdict file_path status expiration_date))
         is_Exception
         (λ e, print (ErrorProcessing file_path e)))
      (present ← os_path_exists temp_plist;
       if present : bool then os_remove temp_plist else mret ()).

(** The loop over [ipa_zip.namelist()], with [extracted_paths] as it grows. *)
Fixpoint extract_members (ipa_zip : zip) (names : list string)
    (extracted_paths : list string) : M (list string) :=
  match names with
  | [] => mret extracted_paths
  | file :: names' =>
      if endswith file "embedded.mobileprovision" then
        let extract_path :=
          os_path_join TEMP_DIR
            (os_path_basename file +:+ "_" +:+ pretty (length extracted_paths)) in
        zip_extract ipa_zip file TEMP_DIR;;
        shutil_move (os_path_join TEMP_DIR file) extract_path;;
        extract_members ipa_zip names' (extracted_paths ++ [extract_path])
      else extract_members ipa_zip names' extracted_paths
  end.

Definition extract_mobileprovision_from_ipa (ipa_path : string)
    : M (list string) :=
  try_except
    (ipa_zip ← ZipFile ipa_path;
     extracted_paths ← extract_members ipa_zip (namelist ipa_zip) [];
     (if bool_decide (extracted_paths = [])
      then print (NoEmbedded ipa_path) else mret ());;
     mret extracted_paths)
    is_Exception
    (λ e, print (ErrorExtracting ipa_path e);; mret []).

(** One iteration of the inner loop of [process_directory]. *)
Definition process_file (root filename : string) : M unit :=
  let file_path := os_path_join root filename in
  if endswith filename ".mobileprovision" then check_expiry file_path
  else if endswith filename ".ipa" then
    extracted_paths ← extract_mobileprovision_from_ipa file_path;
    for_each extracted_paths check_expiry
  else mret ().

(** [process_directory], over the triples [(root, dirs, files)] that
    [os.walk(directory)] yields during the run. *)
Definition process_directory
    (walk : list (string * list string * list string)) : M unit :=
  for_each walk (λ entry,
    for_each entry.2 (λ filename, process_file entry.1.1 filename)).

Definition main (walk : list (string * list string * list string)) : M unit :=
  present ← os_path_exists TEMP_DIR;
  (if present : bool then shutil_rmtree TEMP_DIR else mret ());;
  os_makedirs TEMP_DIR;;
  process_directory walk;;
  present ← os_path_exists TEMP_DIR;
  if present : bool then shutil_rmtree TEMP_DIR else mret ().

End Script.

(** ** Vocabulary of the statements *)

(** The decoded document's path: [f"{file_path}.plist"]. *)
Definition temp_plist (file_path : string) : string := file_path +:+ ".plist".

(** The line the [try] block of [check_expiry] prints, as a function of
    what is found at the decoded document's path. *)
Definition report (now : datetime) (file_path : string) (n : option node) : line :=
  match n with
  | Some (File (PlistDoc (PDict d))) =>
      if negb (truthy (d !! "ExpirationDate"))
      then NoExpirationDate file_path
      else match d !! "ExpirationDate" with
           | Some (PDate t) =>
               Verdict file_path (if t <? now then "EXPIRED" else "VALID")
                 (Some (PDate t))
           | _ => ErrorProcessing file_path (TypeError "'<' not supported")
           end
  | Some (File (PlistDoc _)) => ErrorProcessing file_path (AttributeError "get")
  | Some (File _) => ErrorProcessing file_path InvalidFileException
  | Some Dir => ErrorProcessing file_path (IsADirectoryError (temp_plist file_path))
  | None => ErrorProcessing file_path (FileNotFoundError (temp_plist file_path))
  end.

(** The [try ... except ... finally] of [check_expiry], from the state the
    tool leaves behind. *)
Definition after_decode (now : datetime) (file_path : string) (f' : gmap loc node)
    (printed : list line) : result unit * world :=
  let k := resolve (temp_plist file_path) in
  let printed' := printed ++ [report now file_path (node_at f' k)] in
  match node_at f' k with
  | Some (File _) => (Ok (), World (delete k f') printed')
  | Some Dir => (Raise (IsADirectoryError (temp_plist file_path)), World f' printed')
  | None => (Ok (), World f' printed')
  end.

(** A computation returns when it ends without an exception. *)
Definition returns {A} (m : M A) (w : world) : Prop :=
  ∃ a, (m w).1 = Ok a.

(** The library calls change the file system only: nothing is printed. *)
Definition silent {A} (m : M A) : Prop := ∀ w, out (m w).2 = out w.

(** A computation only appends lines, each satisfying [P]. *)
Definition prints (P : line → Prop) {A} (m : M A) : Prop :=
  ∀ w, ∃ ls, out (m w).2 = out w ++ ls ∧ Forall P ls.

(** A verdict line agrees with the comparison against [now]. *)
Definition judged (now : datetime) (l : line) : Prop :=
  match l with
  | Verdict _ status (Some (PDate t)) =>
      status = if t <? now then "EXPIRED" else "VALID"
  | Verdict _ _ _ => False
  | _ => True
  end.

(** The tool can be started, and when it reports success it has not left a
    directory where its output file should be. *)
Definition tool_runs
    (tool : string → string → gmap loc node → run_outcome * gmap loc node)
    : Prop :=
  ∀ file_path output_path f,
    match (tool file_path output_path f).1 with
    | Completed rc _ =>
        rc = 0 → is_dir (tool file_path output_path f).2 (resolve output_path) = false
    | NotStarted _ => False
    end.

(** The path separator. *)
Definition sep : ascii := "/"%char.

(** A decimal digit. *)
Definition digit (c : ascii) : Prop := is_Some (Ascii.is_nat c).

(** [os.path.basename(file) + f"_{n}"]. *)
Definition scratch_name (n : nat) (file : string) : string :=
  os_path_basename file +:+ "_" +:+ pretty n.

(** The disambiguated path the loop computes for the [n]-th match. *)
Definition extract_path (n : nat) (file : string) : string :=
  os_path_join TEMP_DIR (scratch_name n file).

(** A member name whose components all name directory entries. *)
Definition clean (file : string) : Prop :=
  Forall (λ c, invalid_path_part c = false) (split_sep file).

(** The member names the loop selects. *)
Definition matching (names : list string) : list string :=
  filter (λ n, endswith n "embedded.mobileprovision" = true) names.

(** The paths the loop appends, from index [n] on. *)
Fixpoint expected_paths (n : nat) (files : list string) : list string :=
  match files with
  | [] => []
  | file :: files' => extract_path n file :: expected_paths (S n) files'
  end.

(** One matching member: extract it, then move it. *)
Definition extract_one (z : zip) (file : string) (n : nat) : M unit :=
  zip_extract z file TEMP_DIR;;
  shutil_move (os_path_join TEMP_DIR file) (extract_path n file).

(** Where the member called [file] is extracted to. *)
Definition target_loc (file : string) : loc :=
  resolve TEMP_DIR ++ arcname file.

(** No disambiguated path is a directory. *)
Definition no_dir_at_paths (f : gmap loc node) (files : list string) : Prop :=
  Forall (λ p, is_dir f (resolve p) = false) (expected_paths 0 files).

(** No disambiguated path lies on the way to an extraction target. *)
Definition no_clash (files : list string) : Prop :=
  Forall (λ file,
            Forall (λ p, ¬ resolve p `prefix_of` target_loc file)
              (expected_paths 0 files))
         files.

(** The line is the status line of the profile at [file_path]. *)
Definition status_line (file_path : string) (l : line) : Prop :=
  match l with
  | FailedToDecode p | NoExpirationDate p | Verdict p _ _
  | ErrorProcessing p _ => p = file_path
  | _ => False
  end.

(** The profile a status line is about; diagnostics have none. *)
Definition status_of (l : line) : option string :=
  match l with
  | FailedToDecode p | NoExpirationDate p | Verdict p _ _
  | ErrorProcessing p _ => Some p
  | _ => None
  end.

(** The file names [process_directory] dispatches on. *)
Definition relevant (filename : string) : bool :=
  endswith filename ".mobileprovision" || endswith filename ".ipa".

(** The tool was started, or [subprocess.run] raised [CalledProcessError]. *)
Definition started (o : run_outcome) : Prop :=
  match o with
  | Completed _ _ => True
  | NotStarted e => is_CalledProcessError e = true
  end.

(** The walk as [process_directory] sees it: the directories of a triple
    are not read, and only the dispatched file names matter. *)
Definition dispatched (walk : list (string * list string * list string))
    : list (string * list string * list string) :=
  (λ entry, (entry.1.1, [], filter (λ n, relevant n = true) entry.2)) <$> walk.

(** The paths of the standalone profiles of a walk, in walk order. *)
Definition profile_paths (walk : list (string * list string * list string))
    : list string :=
  flat_map (λ entry,
              os_path_join entry.1.1
                <$> filter (λ n, endswith n ".mobileprovision" = true) entry.2)
           walk.

(** ** Sample tools and worlds *)

Module Samples.

Definition doc (t : datetime) : content :=
  PlistDoc (PDict {[ "ExpirationDate" := PDate t; "Name" := PString "dev" ]}).

(** A tool that decodes every profile to a document expiring at [t], and
    fails when it cannot create its output file. *)
Definition decodes_to (t : datetime)
    (file_path output_path : string) (f : gmap loc node) :=
  if is_dir f (resolve output_path)
  then (Completed 1 "cannot create output", f)
  else (Completed 0 "", <[resolve output_path := File (doc t)]> f).

(** A tool that decodes every profile to a document without the key. *)
Definition decodes_without_key
    (file_path output_path : string) (f : gmap loc node) :=
  (Completed 0 "",
   <[resolve output_path := File (PlistDoc (PDict {[ "Name" := PString "dev" ]}))]> f).

(** A tool that decodes every profile to a document whose expiration key
    holds [v]. *)
Definition decodes_to_value (v : plist_value)
    (file_path output_path : string) (f : gmap loc node) :=
  (Completed 0 "",
   <[resolve output_path := File (PlistDoc (PDict {[ "ExpirationDate" := v ]}))]> f).

(** A tool that is not installed: [subprocess.run] raises. *)
Definition not_installed
    (file_path output_path : string) (f : gmap loc node) :=
  (NotStarted (FileNotFoundError "security"), f).

(** A tool that creates its output file and then rejects the input. *)
Definition rejects_after_creating
    (file_path output_path : string) (f : gmap loc node) :=
  (Completed 1 "decode failed", <[resolve output_path := File (Blob "")]> f).

(** A tool that rejects every input and writes nothing. *)
Definition rejects
    (file_path output_path : string) (f : gmap loc node) :=
  (Completed 1 "decode failed", f).

(** A tool that reports success and writes nothing. *)
Definition succeeds_without_output
    (file_path output_path : string) (f : gmap loc node) :=
  (Completed 0 "", f).

(** A tool that takes the content of the profile for the document signed
    in it: a property list is written out as it is, anything else is
    rejected, and so is an output path where a directory stands. *)
Definition unwraps
    (file_path output_path : string) (f : gmap loc node) :=
  if is_dir f (resolve output_path)
  then (Completed 1 "cannot create output", f)
  else match node_at f (resolve file_path) with
       | Some (File (PlistDoc v)) =>
           (Completed 0 "", <[resolve output_path := File (PlistDoc v)]> f)
       | _ => (Completed 1 "not a signed message", f)
       end.

(** A directory with one profile holding [c]. *)
Definition w_profile (c : content) : world :=
  World {[ ["a.mobileprovision"] := File c ]} [].

Definition w0 : world :=
  World {[ ["a.mobileprovision"] := File (Blob "signed") ]} [].

(** An archive whose members hold their own names as data. *)
Definition ipa (names : list string) : content :=
  ZipArchive ((λ n, (n, Some (Blob n))) <$> names).

(** A world with [app.ipa] and an empty scratch directory. *)
Definition w_ipa (archive : content) : world :=
  World {[ ["app.ipa"] := File archive; ["temp_extracted"] := Dir ]} [].

(** An archive whose second profile cannot be read. *)
Definition half_readable_members : list (string * option content) :=
  [("Payload/A.app/embedded.mobileprovision", Some (Blob "p1"));
   ("Payload/A.app/PlugIns/B.appex/embedded.mobileprovision", None)].
Definition half_readable : content := ZipArchive half_readable_members.

(** An archive with two ordinary profiles. *)
Definition two_profiles : list (string * option content) :=
  [("Payload/A.app/embedded.mobileprovision", Some (Blob "app"));
   ("Payload/A.app/Info.plist", Some (Blob "info"));
   ("Payload/A.app/PlugIns/B.appex/embedded.mobileprovision", Some (Blob "ext"))].

(** An archive whose members lie in a directory named like the first
    disambiguated path. *)
Definition clash_members : list (string * option content) :=
  [("embedded.mobileprovision_0/x/embedded.mobileprovision", Some (Blob "first"));
   ("embedded.mobileprovision_0/embedded.mobileprovision", Some (Blob "second"))].

(** A directory with a text file, and a regular file where the scratch
    directory should be. *)
Definition w_notes : world :=
  World {[ ["notes.txt"] := File (Blob "todo");
           ["temp_extracted"] := Dir;
           ["temp_extracted"; "old"] := File (Blob "stale") ]} [].
Definition w_blocked : world :=
  World {[ ["temp_extracted"] := File (Blob "") ]} [].

(** What [os.walk] yields for a directory with two profiles and a text
    file, and for the directory of [w_notes] once the scratch directory
    has been created anew. *)
Definition walk_profiles : list (string * list string * list string) :=
  [(".", ["docs"], ["a.mobileprovision"; "notes.txt"]);
   ("./docs", [], ["b.mobileprovision"])].
Definition walk_notes : list (string * list string * list string) :=
  [(".", ["temp_extracted"], ["notes.txt"]); ("./temp_extracted", [], [])].

(** An archive whose only member is named with a [..] component, beside
    a profile of the user's. *)
Definition w_beside : world :=
  World {[ ["app.ipa"] :=
             File (ZipArchive [("../embedded.mobileprovision",
                                Some (Blob "theirs"))]);
           ["embedded.mobileprovision"] := File (Blob "mine");
           ["temp_extracted"] := Dir ]} [].

(** An archive with two members of one name. *)
Definition same_name_members : list (string * option content) :=
  [("Payload/A.app/embedded.mobileprovision", Some (Blob "one"));
   ("Payload/A.app/embedded.mobileprovision", Some (Blob "two"))].

(** An archive whose second profile cannot be read, followed in the walk
    by an archive with one profile. *)
Definition w_leftover : world :=
  World {[ ["a.ipa"] := File half_readable;
           ["b.ipa"] := File (ZipArchive [("Payload/B.app/embedded.mobileprovision", Some (Blob "pB"))]);
           ["temp_extracted"] := Dir ]} [].

(** An archive whose only member name passes through a directory [x]
    that is not there, beside a profile of the user's. *)
Definition w_no_way : world :=
  World {[ ["app.ipa"] :=
             File (ZipArchive [("../x/../embedded.mobileprovision",
                                Some (Blob "theirs"))]);
           ["embedded.mobileprovision"] := File (Blob "mine");
           ["temp_extracted"] := Dir ]} [].

(** Two archives with one profile each. *)
Definition w_two : world :=
  World {[ ["a.ipa"] := File (ZipArchive [("Payload/A.app/embedded.mobileprovision", Some (Blob "pA"))]);
           ["b.ipa"] := File (ZipArchive [("Payload/B.app/embedded.mobileprovision", Some (Blob "pB"))]);
           ["temp_extracted"] := Dir ]} [].

End Samples.

(** ** Facts about paths *)

Section Paths.

Implicit Types s a b : string.

Lemma chars_app a b : chars (a +:+ b) = chars a ++ chars b.
Proof. induction a as [|c a IH]; simpl; [done|]. by rewrite <-IH. Qed.

Lemma chars_inj a b : chars a = chars b → a = b.
Proof.
  intros H. rewrite <-(String.string_of_list_ascii_of_string a),
    <-(String.string_of_list_ascii_of_string b). unfold chars in H.
  by rewrite H.
Qed.

Lemma split_sep_cons c s :
  split_sep (String c s) =
  if Ascii.eqb c sep then "" :: split_sep s
  else match split_sep s with
       | h :: t => String c h :: t
       | [] => [String c ""]
       end.
Proof. done. Qed.

Lemma split_sep_nonempty s : split_sep s ≠ [].
Proof.
  destruct s as [|c s]; [done|]. rewrite split_sep_cons.
  destruct (Ascii.eqb c sep); [done|]. by destruct (split_sep s).
Qed.

(** No component contains the separator. *)
Lemma split_sep_no_sep s : Forall (λ c, sep ∉ chars c) (split_sep s).
Proof.
  induction s as [|c s IH].
  - repeat constructor. simpl. by intros ?%elem_of_nil.
  - rewrite split_sep_cons. destruct (Ascii.eqb_spec c sep) as [->|Hc].
    + constructor; [|done]. simpl. by intros ?%elem_of_nil.
    + destruct (split_sep s) as [|h t]; inversion IH; subst.
      * repeat constructor. simpl. intros [?|?%elem_of_nil]%elem_of_cons; done.
      * constructor; [|done]. simpl.
        intros [?|?]%elem_of_cons; done.
Qed.

(** A string without separator is its only component. *)
Lemma split_sep_single s : sep ∉ chars s → split_sep s = [s].
Proof.
  induction s as [|c s IH]; [done|]. simpl chars.
  intros [Hc Hs]%not_elem_of_cons. rewrite split_sep_cons.
  destruct (Ascii.eqb_spec c sep) as [->|_]; [done|]. by rewrite IH.
Qed.

(** Splitting is compatible with joining on the separator. *)
Lemma split_sep_join a b :
  split_sep (a +:+ "/" +:+ b) = split_sep a ++ split_sep b.
Proof.
  induction a as [|c a IH]; [done|].
  change (String c a +:+ "/" +:+ b) with (String c (a +:+ "/" +:+ b)).
  rewrite !split_sep_cons, IH.
  destruct (Ascii.eqb c sep); [done|].
  pose proof (split_sep_nonempty a). by destruct (split_sep a).
Qed.

(** Appending a string without separator extends the last component. *)
Lemma split_sep_app a b :
  sep ∉ chars b →
  ∃ l x, split_sep a = l ++ [x] ∧ split_sep (a +:+ b) = l ++ [x +:+ b].
Proof.
  intros Hb. induction a as [|c a (l & x & Ha & Hab)].
  - exists [], "". change ("" +:+ b) with b. by rewrite (split_sep_single b).
  - change (String c a +:+ b) with (String c (a +:+ b)).
    rewrite !split_sep_cons, Ha, Hab.
    destruct (Ascii.eqb c sep); [by exists ("" :: l), x|].
    destruct l as [|h t]; [by exists [], (String c x)|].
    by exists (String c h :: t), x.
Qed.

Lemma basename_app a b :
  sep ∉ chars b → os_path_basename (a +:+ b) = os_path_basename a +:+ b.
Proof.
  intros Hb. unfold os_path_basename.
  destruct (split_sep_app a b Hb) as (l & x & -> & ->).
  by rewrite !last_snoc.
Qed.

Lemma basename_no_sep s : sep ∉ chars (os_path_basename s).
Proof.
  unfold os_path_basename.
  destruct (last (split_sep s)) as [x|] eqn:Hlast; simpl.
  - apply last_Some_elem_of in Hlast.
    by eapply (proj1 (Forall_forall _ _) (split_sep_no_sep s)).
  - by intros ?%elem_of_nil.
Qed.

(** *** Decimal numerals *)

Lemma pretty_N_char_digit x : digit (pretty_N_char x).
Proof. unfold pretty_N_char, digit. repeat case_match; by eexists. Qed.

Lemma pretty_N_go_digits x s :
  Forall digit (chars s) → Forall digit (chars (pretty_N_go x s)).
Proof.
  revert s. induction (N.lt_wf_0 x) as [x _ IH]; intros s Hs.
  assert (x = 0 ∨ 0 < x)%N as [->|Hx] by lia; [by rewrite pretty_N_go_0|].
  rewrite pretty_N_go_step by done. apply IH.
  - by apply N.div_lt.
  - simpl. constructor; [apply pretty_N_char_digit|done].
Qed.

Lemma pretty_nat_digits (n : nat) : Forall digit (chars (pretty n)).
Proof.
  unfold pretty, pretty_nat, pretty, pretty_N. case_decide.
  - repeat constructor. by eexists.
  - apply pretty_N_go_digits. constructor.
Qed.

Lemma not_in_digits (c : ascii) (n : nat) :
  Ascii.is_nat c = None → c ∉ chars (pretty n).
Proof.
  intros Hc Hin.
  apply (proj1 (Forall_forall _ _) (pretty_nat_digits n)) in Hin.
  destruct Hin as [? Hin]. congruence.
Qed.

(** *** The disambiguated names *)

(** A list is cut in one way only at the last occurrence of an element. *)
Lemma app_pivot_first {A} (c : A) (l1 l2 r1 r2 : list A) :
  c ∉ l1 → c ∉ l2 → l1 ++ c :: r1 = l2 ++ c :: r2 → l1 = l2 ∧ r1 = r2.
Proof.
  revert l2. induction l1 as [|x l1 IH]; intros [|y l2] H1 H2 Heq;
    simplify_eq/=.
  - done.
  - by apply not_elem_of_cons in H2 as [[] _].
  - by apply not_elem_of_cons in H1 as [[] _].
  - apply not_elem_of_cons in H1 as [_ H1].
    apply not_elem_of_cons in H2 as [_ H2].
    destruct (IH l2 H1 H2) as [-> ->]; done.
Qed.

Lemma app_pivot_last {A} (c : A) (l1 l2 r1 r2 : list A) :
  c ∉ r1 → c ∉ r2 → l1 ++ c :: r1 = l2 ++ c :: r2 → l1 = l2 ∧ r1 = r2.
Proof.
  intros H1 H2 Heq. apply (f_equal reverse) in Heq.
  rewrite !reverse_app, !reverse_cons, <-!app_assoc in Heq. simpl in Heq.
  apply app_pivot_first in Heq as [Hr Hl];
    [|by rewrite elem_of_reverse..].
  split; by apply (inj reverse).
Qed.

Lemma chars_scratch_name n file :
  chars (scratch_name n file)
  = chars (os_path_basename file) ++ "_"%char :: chars (pretty n).
Proof. unfold scratch_name. by rewrite !chars_app. Qed.

(** Names with different indices differ, whatever the base names. *)
Lemma scratch_name_inj n1 n2 file1 file2 :
  scratch_name n1 file1 = scratch_name n2 file2 → n1 = n2.
Proof.
  intros H%(f_equal chars). rewrite !chars_scratch_name in H.
  apply app_pivot_last in H as [_ H]; [|by apply not_in_digits..].
  by apply chars_inj, (inj pretty) in H.
Qed.

Lemma scratch_name_no_sep n file : sep ∉ chars (scratch_name n file).
Proof.
  rewrite chars_scratch_name.
  intros [?|[?|?]%elem_of_cons]%elem_of_app.
  - by eapply basename_no_sep.
  - done.
  - by eapply (not_in_digits sep n).
Qed.

Lemma scratch_name_valid n file :
  invalid_path_part (scratch_name n file) = false.
Proof.
  assert ("_"%char ∈ chars (scratch_name n file)) as Hin.
  { rewrite chars_scratch_name. apply elem_of_app. right. by left. }
  unfold invalid_path_part, is_dot.
  repeat (case_bool_decide;
          [match goal with Heq : scratch_name _ _ = _ |- _ =>
             rewrite Heq in Hin end;
           simpl in Hin; set_unfold; intuition discriminate|]).
  done.
Qed.

Lemma startswith_sep_false s : sep ∉ chars s → startswith s "/" = false.
Proof.
  intros Hs. apply bool_decide_eq_false. intros [k Hk]. apply Hs.
  rewrite Hk. by left.
Qed.

Lemma join_TEMP_DIR s :
  startswith s "/" = false → os_path_join TEMP_DIR s = TEMP_DIR +:+ "/" +:+ s.
Proof. intros Hs. unfold os_path_join. by rewrite Hs. Qed.

(** Valid components are pushed as they are. *)
Lemma fold_norm_step (l st : list string) :
  Forall (λ c, invalid_path_part c = false) l →
  fold_left norm_step l st = reverse l ++ st.
Proof.
  revert st. induction l as [|c l IH]; intros st Hl; [done|].
  inversion_clear Hl as [|?? Hc Hl']. simpl.
  rewrite reverse_cons, <-app_assoc. rewrite IH by done. f_equal.
  unfold norm_step. unfold invalid_path_part in Hc.
  apply orb_false_iff in Hc as [-> Hc]. by rewrite Hc.
Qed.

(** Below the scratch directory, a path of valid components resolves to
    those components. *)
Lemma resolve_in_TEMP_DIR s :
  Forall (λ c, invalid_path_part c = false) (split_sep s) →
  resolve (TEMP_DIR +:+ "/" +:+ s) = "temp_extracted" :: split_sep s.
Proof.
  intros Hs. unfold resolve.
  rewrite split_sep_join. change (split_sep TEMP_DIR) with ["temp_extracted"].
  change (startswith (TEMP_DIR +:+ "/" +:+ s) "/") with false.
  rewrite fold_norm_step by (by constructor).
  by rewrite app_nil_r, reverse_involutive.
Qed.

(** Where a disambiguated path lies. *)
Lemma resolve_extract_path n file :
  resolve (extract_path n file) = ["temp_extracted"; scratch_name n file].
Proof.
  unfold extract_path.
  rewrite join_TEMP_DIR
    by (apply startswith_sep_false, scratch_name_no_sep).
  rewrite resolve_in_TEMP_DIR;
    rewrite (split_sep_single _ (scratch_name_no_sep n file)); [done|].
  constructor; [apply scratch_name_valid|done].
Qed.

Lemma extract_path_inj n1 n2 file1 file2 :
  resolve (extract_path n1 file1) = resolve (extract_path n2 file2) → n1 = n2.
Proof.
  rewrite !resolve_extract_path. intros [= H]. by eapply scratch_name_inj.
Qed.

Lemma clean_not_absolute file : clean file → startswith file "/" = false.
Proof.
  intros Hc. apply bool_decide_eq_false. intros [k Hk].
  destruct file as [|c file]; [done|]. simpl in Hk. injection Hk as -> _.
  unfold clean in Hc. rewrite split_sep_cons in Hc. simpl in Hc.
  by inversion Hc.
Qed.

(** A clean member is extracted to the very path the script moves from. *)
Lemma resolve_clean_member file :
  clean file →
  resolve (os_path_join TEMP_DIR file) = resolve TEMP_DIR ++ arcname file.
Proof.
  intros Hc. rewrite join_TEMP_DIR by (by apply clean_not_absolute).
  rewrite resolve_in_TEMP_DIR by done. unfold arcname.
  change (resolve TEMP_DIR) with ["temp_extracted"]. simpl. f_equal.
  unfold clean in Hc. induction Hc as [|c l Hc _ IH]; [done|].
  rewrite filter_cons, decide_True by done. by f_equal.
Qed.

End Paths.

(** ** Properties of [check_expiry] *)

Ltac unfold_monad :=
  unfold try_finally, try_except, os_path_exists, os_remove, open_rb,
    plistlib_load, dict_get, lt_datetime, print, get_fs, put_fs, raise,
    set_fs, mbind, mret, M_bind, M_ret in *.

Section CheckExpiry.

Variable now : datetime.
Variable tool : string → string → gmap loc node → run_outcome * gmap loc node.

Lemma out_after_decode file_path f' printed :
  out (after_decode now file_path f' printed).2
  = printed ++ [report now file_path (node_at f' (resolve (temp_plist file_path)))].
Proof. unfold after_decode. by repeat case_match. Qed.

(** Every run of [check_expiry], by the outcome of the tool. *)
Lemma check_expiry_run file_path w :
  check_expiry now tool file_path w =
  let r := tool file_path (temp_plist file_path) (fs w) in
  match r.1 with
  | Completed rc stderr =>
      if bool_decide (rc = 0) then after_decode now file_path r.2 (out w)
      else (Ok (), World r.2 (out w ++ [ErrorDecoding file_path stderr;
                                        FailedToDecode file_path]))
  | NotStarted e =>
      if is_CalledProcessError e
      then (Ok (), World r.2 (out w ++ [ErrorDecoding file_path (stderr_of e);
                                        FailedToDecode file_path]))
      else (Raise e, World r.2 (out w))
  end.
Proof.
  unfold check_expiry, decode_mobileprovision, subprocess_run, after_decode, report.
  fold (temp_plist file_path). unfold_monad. unfold exists_at. simpl.
  destruct (tool file_path (temp_plist file_path) (fs w)) as [[rc err|e] f'];
    simpl.
  - case_bool_decide; simpl; [|by rewrite <-app_assoc].
    destruct (node_at f' _) as [[[b|v|ms]|]|] eqn:Hnode;
      repeat (first [progress simpl | rewrite Hnode]); try reflexivity.
    destruct v as [d|l|s|z|b|bs|t];
      repeat (first [progress simpl | rewrite Hnode]); try reflexivity.
    destruct (d !! "ExpirationDate") as [[| | | |[]| |]|];
      repeat (first [progress simpl | rewrite Hnode | case_bool_decide]);
      reflexivity.
  - destruct (is_CalledProcessError e); simpl; [by rewrite <-app_assoc|done].
Qed.

(** C1: when the tool has decoded the profile and the parsed document is a
    dict whose expiration key holds an instant [t], [check_expiry] returns
    after printing exactly one line, made of the file path, a status and the
    instant; the status is [EXPIRED] exactly when [t] is strictly earlier
    than the captured instant, and [VALID] otherwise. *)
Theorem check_expiry_verdict file_path w stderr d t :
  (tool file_path (temp_plist file_path) (fs w)).1 = Completed 0 stderr →
  node_at (tool file_path (temp_plist file_path) (fs w)).2
    (resolve (temp_plist file_path))
    = Some (File (PlistDoc (PDict d))) →
  d !! "ExpirationDate" = Some (PDate t) →
  ∃ status,
    check_expiry now tool file_path w
    = (Ok (), World (delete (resolve (temp_plist file_path))
                       (tool file_path (temp_plist file_path) (fs w)).2)
                (out w ++ [Verdict file_path status (Some (PDate t))]))
    ∧ (status = "EXPIRED" ↔ t < now)
    ∧ (status = "VALID" ↔ ¬ t < now).
Proof.
  intros Hrun Hnode Hd.
  exists (if t <? now then "EXPIRED" else "VALID").
  rewrite check_expiry_run. simpl. rewrite Hrun. simpl.
  unfold after_decode, report.
  rewrite Hnode, Hd. simpl. split; [reflexivity|].
  destruct (Z.ltb_spec t now); split; split; (done || lia).
Qed.

(** C8: when the tool has decoded the profile and the parsed document is a
    dict without the expiration key, [check_expiry] prints the single line
    [No expiration date found] for the file, removes the decoded document
    and returns; no verdict line is printed. *)
Theorem check_expiry_no_expiration file_path w stderr d :
  (tool file_path (temp_plist file_path) (fs w)).1 = Completed 0 stderr →
  node_at (tool file_path (temp_plist file_path) (fs w)).2
    (resolve (temp_plist file_path))
    = Some (File (PlistDoc (PDict d))) →
  d !! "ExpirationDate" = None →
  check_expiry now tool file_path w
  = (Ok (), World (delete (resolve (temp_plist file_path))
                     (tool file_path (temp_plist file_path) (fs w)).2)
              (out w ++ [NoExpirationDate file_path])).
Proof.
  intros Hrun Hnode Hd.
  rewrite check_expiry_run. simpl. rewrite Hrun. simpl.
  unfold after_decode, report.
  rewrite Hnode, Hd. reflexivity.
Qed.

(** A failed decode returns before the [try]: the file system is left as
    the tool left it, with nothing removed. *)
Lemma check_expiry_decode_failed file_path w rc stderr :
  (tool file_path (temp_plist file_path) (fs w)).1 = Completed rc stderr →
  rc ≠ 0 →
  check_expiry now tool file_path w
  = (Ok (), World (tool file_path (temp_plist file_path) (fs w)).2
              (out w ++ [ErrorDecoding file_path stderr;
                         FailedToDecode file_path])).
Proof.
  intros Hrun Hrc. rewrite check_expiry_run. simpl. rewrite Hrun.
  by rewrite bool_decide_false.
Qed.

(** Once the tool has exited with status zero, the decoded document is gone
    when [check_expiry] returns, unless a directory stands at its path. *)
Lemma check_expiry_cleans file_path w stderr :
  (tool file_path (temp_plist file_path) (fs w)).1 = Completed 0 stderr →
  is_dir (tool file_path (temp_plist file_path) (fs w)).2
    (resolve (temp_plist file_path)) = false →
  ∃ w', check_expiry now tool file_path w = (Ok (), w')
        ∧ exists_at (fs w') (resolve (temp_plist file_path)) = false.
Proof.
  intros Hrun Hdir. rewrite check_expiry_run. simpl. rewrite Hrun. simpl.
  destruct (tool file_path (temp_plist file_path) (fs w)) as [o f'].
  simpl in *. clear Hrun.
  unfold after_decode, is_dir, exists_at in *.
  destruct (resolve (temp_plist file_path)) as [|c k] eqn:Hk; [done|].
  destruct (node_at f' (c :: k)) as [[|]|] eqn:Hnode; [|done|].
  - eexists; split; [done|]. unfold node_at. simpl.
    by rewrite lookup_delete_eq.
  - eexists; split; [done|]. simpl. by rewrite Hnode.
Qed.

End CheckExpiry.

(** ** Properties of the extraction *)

Section Extraction.

Lemma silent_bind {A B} (m : M A) (k : A → M B) :
  silent m → (∀ a, silent (k a)) → silent (m ≫= k).
Proof.
  intros Hm Hk w. unfold mbind, M_bind. specialize (Hm w).
  destruct (m w) as [[a|e] w1]; simpl in *; [|done].
  by rewrite Hk.
Qed.

Lemma silent_ret {A} (a : A) : silent (mret a : M A).
Proof. done. Qed.
Lemma silent_raise {A} e : silent (raise e : M A).
Proof. done. Qed.
Lemma silent_get_fs : silent get_fs.
Proof. done. Qed.
Lemma silent_put_fs f : silent (put_fs f).
Proof. done. Qed.

Ltac silent_tac :=
  repeat first
    [ apply silent_bind; [|intros ?]
    | apply silent_ret | apply silent_raise
    | apply silent_get_fs | apply silent_put_fs
    | case_match ].

Lemma silent_write_file k c : silent (write_file k c).
Proof. unfold write_file. silent_tac. Qed.
Lemma silent_makedirs_at k b : silent (makedirs_at k b).
Proof. unfold makedirs_at. silent_tac. Qed.
Lemma silent_rename_at src dst : silent (rename_at src dst).
Proof. unfold rename_at. silent_tac. Qed.
Lemma silent_shutil_move src dst : silent (shutil_move src dst).
Proof. unfold shutil_move. silent_tac; apply silent_rename_at. Qed.
Lemma silent_zip_extract z name path : silent (zip_extract z name path).
Proof.
  unfold zip_extract. silent_tac;
    first [apply silent_makedirs_at | apply silent_write_file].
Qed.
Lemma silent_ZipFile p : silent (ZipFile p).
Proof. unfold ZipFile. silent_tac. Qed.

Lemma silent_extract_members z names acc :
  silent (extract_members z names acc).
Proof.
  revert acc. induction names as [|file names IH]; intros acc; simpl.
  - apply silent_ret.
  - case_match; [|apply IH].
    apply silent_bind; [apply silent_zip_extract|intros _].
    apply silent_bind; [apply silent_shutil_move|intros _]. apply IH.
Qed.

(** Opening the archive reads the file system and leaves it alone. *)
Lemma ZipFile_run p w :
  ZipFile p w =
  (match node_at (fs w) (resolve p) with
   | Some (File (ZipArchive ms)) => Ok ms
   | Some (File _) => Raise (BadZipFile "File is not a zip file")
   | Some Dir => Raise (IsADirectoryError p)
   | None => Raise (FileNotFoundError p)
   end, w).
Proof.
  unfold ZipFile. unfold_monad.
  by destruct (node_at (fs w) (resolve p)) as [[[]|]|].
Qed.

(** Every run of [extract_mobileprovision_from_ipa]: it always returns. *)
Lemma extract_run ipa_path w :
  extract_mobileprovision_from_ipa ipa_path w =
  match ZipFile ipa_path w with
  | (Raise e, _) => (Ok [], World (fs w) (out w ++ [ErrorExtracting ipa_path e]))
  | (Ok ipa_zip, _) =>
      match extract_members ipa_zip (namelist ipa_zip) [] w with
      | (Ok [], w1) => (Ok [], World (fs w1) (out w ++ [NoEmbedded ipa_path]))
      | (Ok paths, w1) => (Ok paths, w1)
      | (Raise e, w1) =>
          (Ok [], World (fs w1) (out w ++ [ErrorExtracting ipa_path e]))
      end
  end.
Proof.
  unfold extract_mobileprovision_from_ipa. rewrite ZipFile_run.
  unfold try_except, mbind, M_bind. rewrite ZipFile_run.
  destruct (node_at (fs w) (resolve ipa_path)) as [[[b|v|ms]|]|]; try done.
  pose proof (silent_extract_members ms (namelist ms) [] w) as Hout.
  destruct (extract_members ms (namelist ms) [] w) as [[[|p ps]|e] w1];
    simpl in *; unfold print, mret, M_ret; simpl; by rewrite ?Hout.
Qed.

Lemma extract_returns ipa_path w :
  ∃ paths w', extract_mobileprovision_from_ipa ipa_path w = (Ok paths, w').
Proof.
  rewrite extract_run. repeat case_match; eauto.
Qed.

(** Names without the embedded-profile suffix are skipped. *)
Lemma extract_members_no_match z names acc w :
  Forall (λ n, endswith n "embedded.mobileprovision" = false) names →
  extract_members z names acc w = (Ok acc, w).
Proof.
  induction 1 as [|n names Hn _ IH]; simpl; [done|]. by rewrite Hn.
Qed.

(** A file name cannot end in both suffixes the walker dispatches on. *)
Lemma suffix_last {A} (l1 l2 : list A) :
  l1 `suffix_of` l2 → l1 ≠ [] → last l2 = last l1.
Proof.
  intros [k ->] Hne. destruct l1 as [|x l1]; [done|].
  by rewrite last_app_cons.
Qed.

Lemma endswith_ipa filename :
  endswith filename ".ipa" = true →
  endswith filename ".mobileprovision" = false.
Proof.
  unfold endswith. intros H1%bool_decide_eq_true.
  apply bool_decide_eq_false. intros H2.
  apply suffix_last in H1; [|done]. apply suffix_last in H2; [|done].
  rewrite H1 in H2. discriminate.
Qed.

(** *** The disambiguated paths *)

Lemma expected_paths_lookup n files i :
  expected_paths n files !! i = extract_path (n + i) <$> files !! i.
Proof.
  revert n i. induction files as [|f files IH]; intros n [|i]; simpl; try done.
  - by rewrite Nat.add_0_r.
  - by rewrite IH, Nat.add_succ_r.
Qed.

Lemma length_expected_paths n files :
  length (expected_paths n files) = length files.
Proof. revert n. induction files; intros; simpl; by f_equal. Qed.

(** The paths lie at pairwise different locations. *)
Lemma NoDup_expected_paths n files :
  NoDup (resolve <$> expected_paths n files).
Proof.
  apply NoDup_alt. intros i j k.
  rewrite !list_lookup_fmap, !expected_paths_lookup.
  destruct (files !! i) as [fi|], (files !! j) as [fj|]; simpl; try done.
  intros [= <-] [= H%extract_path_inj]. lia.
Qed.

Lemma matching_cons_true file names :
  endswith file "embedded.mobileprovision" = true →
  matching (file :: names) = file :: matching names.
Proof. intros H. unfold matching. by rewrite filter_cons, decide_True. Qed.

Lemma matching_cons_false file names :
  endswith file "embedded.mobileprovision" = false →
  matching (file :: names) = matching names.
Proof.
  intros H. unfold matching. rewrite filter_cons, decide_False; [done|].
  by rewrite H.
Qed.

Lemma extract_members_cons z file names acc w :
  extract_members z (file :: names) acc w =
  if endswith file "embedded.mobileprovision" then
    match extract_one z file (length acc) w with
    | (Ok _, w1) =>
        extract_members z names (acc ++ [extract_path (length acc) file]) w1
    | (Raise e, w1) => (Raise e, w1)
    end
  else extract_members z names acc w.
Proof.
  simpl. destruct (endswith file "embedded.mobileprovision"); [|done].
  unfold extract_one, mbind, M_bind.
  destruct (zip_extract z file TEMP_DIR w) as [[[]|e] w1]; [|done].
  by destruct (shutil_move _ _ w1) as [[[]|e] w2].
Qed.

(** When the loop ends without an exception it returns one path for each
    matching name, in order, numbered from the length of the list it
    started with. *)
Lemma extract_members_paths z names acc w ps :
  (extract_members z names acc w).1 = Ok ps →
  ps = acc ++ expected_paths (length acc) (matching names).
Proof.
  revert acc w. induction names as [|file names IH]; intros acc w.
  - simpl. intros [= <-]. by rewrite app_nil_r.
  - rewrite extract_members_cons.
    destruct (endswith file "embedded.mobileprovision") eqn:Hfile.
    + rewrite matching_cons_true by done.
      destruct (extract_one z file (length acc) w) as [[[]|e] w1]; [|done].
      intros ->%IH. rewrite length_app, <-app_assoc. simpl.
      by rewrite Nat.add_1_r.
    + rewrite matching_cons_false by done. apply IH.
Qed.

(** *** What one extraction changes in the file system *)

Lemma node_at_insert_eq (f : gmap loc node) k n :
  k ≠ [] → node_at (<[k:=n]> f) k = Some n.
Proof. destruct k; [done|]. intros _. apply lookup_insert_eq. Qed.

Lemma node_at_insert_ne (f : gmap loc node) k k' n :
  k ≠ k' → node_at (<[k:=n]> f) k' = node_at f k'.
Proof. destruct k'; [done|]. intros ?. by apply lookup_insert_ne. Qed.

Lemma node_at_delete_ne (f : gmap loc node) k k' :
  k ≠ k' → node_at (delete k f) k' = node_at f k'.
Proof. destruct k'; [done|]. intros ?. by apply lookup_delete_ne. Qed.

(** Creating directories touches only locations on the way. *)
Lemma mkdirs_from_frame pre rest f f' k :
  mkdirs_from pre rest f = Ok f' →
  ¬ k `prefix_of` pre ++ rest →
  node_at f' k = node_at f k.
Proof.
  revert pre f. induction rest as [|c rest IH]; intros pre f; simpl.
  - by intros [= ->].
  - replace (pre ++ c :: rest) with ((pre ++ [c]) ++ rest)
      by by rewrite <-app_assoc.
    destruct (node_at f (pre ++ [c])) as [[|]|]; [done|by apply IH|].
    intros Hmk Hk. rewrite (IH _ _ Hmk Hk).
    apply node_at_insert_ne. intros Heq. apply Hk. rewrite <-Heq.
    by apply prefix_app_r.
Qed.

Lemma prefix_parent (k target : loc) :
  k `prefix_of` parent target → k `prefix_of` target.
Proof.
  intros Hk. etrans; [done|]. unfold parent.
  destruct (decide (target = [])) as [->|Hne]; [done|].
  rewrite (app_removelast_last "" Hne) at 2. by apply prefix_app_r.
Qed.

(** Extracting a readable member writes its data at the target and, on
    the way there, only creates directories. *)
Lemma zip_extract_run z file c w w1 :
  getinfo z file = Some (Some c) →
  zip_extract z file TEMP_DIR w = (Ok (), w1) →
  let target := resolve TEMP_DIR ++ arcname file in
  ∃ f_mk,
    fs w1 = <[target := File c]> f_mk
    ∧ ∀ k, ¬ k `prefix_of` target → node_at f_mk k = node_at (fs w) k.
Proof.
  intros Hinfo. unfold zip_extract. rewrite Hinfo.
  case_bool_decide; [done|].
  set (target := resolve TEMP_DIR ++ arcname file). unfold_monad.
  assert (∀ f_mk o,
    write_file target c (World f_mk o) = (Ok (), w1) →
    fs w1 = <[target := File c]> f_mk) as Hwrite.
  { intros f_mk o. unfold write_file. unfold_monad. simpl.
    repeat case_match; try done. by intros [= <-]. }
  destruct (exists_at (fs w) (parent target)) eqn:Hex; simpl.
  - destruct w as [f o]. intros Hw%Hwrite. by exists f.
  - unfold makedirs_at. unfold_monad. rewrite Hex. simpl.
    destruct (mkdirs_from [] (parent target) (fs w)) as [f_mk|e] eqn:Hmk;
      simpl; [|done].
    intros Hw%Hwrite. exists f_mk. split; [done|].
    intros k Hk. eapply mkdirs_from_frame; [done|].
    simpl. intros ?%prefix_parent. done.
Qed.

(** Moving a regular file onto a location that is not a directory. *)
Lemma shutil_move_file src dst c w w' :
  node_at (fs w) (resolve src) = Some (File c) →
  is_dir (fs w) (resolve dst) = false →
  shutil_move src dst w = (Ok (), w') →
  fs w' = <[resolve dst := File c]> (delete (resolve src) (fs w)).
Proof.
  intros Hsrc Hdst. unfold shutil_move. unfold_monad. simpl.
  destruct (walk_error (fs w) src) as [e|]; [by repeat case_match|].
  unfold rename_at. unfold_monad. simpl. rewrite Hdst, Hsrc, Hdst.
  destruct (negb (is_dir (fs w) (parent (resolve dst)))); [done|].
  by intros [= <-].
Qed.

(** One step of the loop, for a clean member name whose disambiguated
    path is neither a directory nor on the way to the extraction target:
    the path then holds the member's data, and every location off the way
    to the target is as before. *)
Lemma extract_one_run z file n c w w' :
  clean file →
  getinfo z file = Some (Some c) →
  is_dir (fs w) (resolve (extract_path n file)) = false →
  ¬ resolve (extract_path n file) `prefix_of` resolve TEMP_DIR ++ arcname file →
  extract_one z file n w = (Ok (), w') →
  node_at (fs w') (resolve (extract_path n file)) = Some (File c)
  ∧ ∀ k, k ≠ resolve (extract_path n file) →
         ¬ k `prefix_of` resolve TEMP_DIR ++ arcname file →
         node_at (fs w') k = node_at (fs w) k.
Proof.
  intros Hclean Hinfo Hdir Hpre. unfold extract_one, mbind, M_bind.
  destruct (zip_extract z file TEMP_DIR w) as [[[]|e] w1] eqn:Hzip; [|done].
  destruct (zip_extract_run _ _ _ _ _ Hinfo Hzip) as (f_mk & Hw1 & Hframe).
  set (target := resolve TEMP_DIR ++ arcname file) in *.
  set (K := resolve (extract_path n file)) in *.
  assert (K ≠ target) as Hne by (by intros ->).
  assert (K ≠ []) as HK by (unfold K; by rewrite resolve_extract_path).
  assert (target ≠ []) as Htarget by done.
  intros Hmove. apply shutil_move_file with (c := c) in Hmove.
  - rewrite Hmove. fold K. rewrite resolve_clean_member by done.
    fold target. split.
    + by apply node_at_insert_eq.
    + intros k Hk Hkt.
      rewrite node_at_insert_ne, node_at_delete_ne, Hw1, node_at_insert_ne
        by (done || by intros ->).
      by apply Hframe.
  - rewrite resolve_clean_member, Hw1 by done. by apply node_at_insert_eq.
  - fold K. unfold is_dir in *. rewrite Hw1, node_at_insert_ne by done.
    by rewrite Hframe.
Qed.

Lemma extract_one_info z file n w w' :
  extract_one z file n w = (Ok (), w') →
  ∃ c, getinfo z file = Some (Some c).
Proof.
  unfold extract_one, zip_extract, mbind, M_bind.
  destruct (getinfo z file) as [[c|]|]; [by eexists|..]; [|done].
  case_bool_decide; [done|]. unfold get_fs, raise.
  match goal with
  | |- context [(if ?b then ?x else ?y) w] =>
      destruct ((if b then x else y) w) as [[[]|?] w0]; [|done]
  end.
  by destruct (write_file _ _ w0) as [[[]|?] ?].
Qed.

(** The loop invariant: for clean member names, when no disambiguated
    path is a directory at the start or lies on the way to an extraction
    target, every disambiguated path holds its member's data at the end,
    and locations that are neither such a path nor on the way to a target
    are as at the start. *)
Lemma extract_members_contents z names : ∀ acc n w ps,
  length acc = n →
  Forall clean (matching names) →
  (∀ i file, matching names !! i = Some file →
     is_dir (fs w) (resolve (extract_path (n + i) file)) = false) →
  (∀ i j fi fj,
     matching names !! i = Some fi → matching names !! j = Some fj →
     ¬ resolve (extract_path (n + j) fj) `prefix_of` target_loc fi) →
  (extract_members z names acc w).1 = Ok ps →
  (∀ i file, matching names !! i = Some file →
     ∃ c, getinfo z file = Some (Some c)
          ∧ node_at (fs (extract_members z names acc w).2)
              (resolve (extract_path (n + i) file)) = Some (File c))
  ∧ (∀ k,
       (∀ i file, matching names !! i = Some file →
          k ≠ resolve (extract_path (n + i) file)
          ∧ ¬ k `prefix_of` target_loc file) →
       node_at (fs (extract_members z names acc w).2) k = node_at (fs w) k).
Proof.
  induction names as [|file names IH]; intros acc n w ps Hn Hclean Hdir Hclash.
  { simpl. intros _. split; [by intros ??|done]. }
  rewrite extract_members_cons.
  destruct (endswith file "embedded.mobileprovision") eqn:Hfile;
    [|rewrite matching_cons_false in * by done; by apply IH].
  rewrite matching_cons_true in * by done.
  rewrite Hn.
  destruct (extract_one z file n w) as [[[]|e] w1] eqn:Hone; [|done].
  destruct (extract_one_info _ _ _ _ _ Hone) as [c Hinfo].
  inversion_clear Hclean as [|?? Hcfile Hcrest].
  pose proof (Hdir 0%nat file eq_refl) as Hdir0.
  pose proof (Hclash 0%nat 0%nat file file eq_refl eq_refl) as Hclash0.
  rewrite Nat.add_0_r in Hdir0, Hclash0.
  destruct (extract_one_run _ _ _ _ _ _ Hcfile Hinfo Hdir0 Hclash0 Hone)
    as [Hhere Hframe].
  intros Hps.
  assert (∀ i, (S n + i = n + S i)%nat) as Hsucc by lia.
  destruct (IH (acc ++ [extract_path n file]) (S n) w1 ps) as [Hrest Hframe'];
    try done.
  { rewrite length_app. simpl. lia. }
  { intros i f Hf. unfold is_dir. rewrite Hsucc, Hframe.
    - by apply (Hdir (S i)).
    - intros Heq%extract_path_inj. lia.
    - by apply (Hclash 0%nat (S i) file f). }
  { intros i j fi fj Hi Hj. rewrite Hsucc.
    by apply (Hclash (S i) (S j)). }
  split.
  - intros [|i] f Hf; simpl in Hf.
    + injection Hf as <-. exists c. split; [done|].
      rewrite Nat.add_0_r, Hframe'; [done|].
      intros i f Hf. split.
      * intros Heq%extract_path_inj. lia.
      * specialize (Hclash (S i) 0%nat f file Hf eq_refl).
        by rewrite Nat.add_0_r in Hclash.
    + rewrite <-Hsucc. by apply Hrest.
  - intros k Hk. rewrite Hframe'.
    + destruct (Hk 0%nat file eq_refl) as [Hk1 Hk2].
      rewrite Nat.add_0_r in Hk1. by apply Hframe.
    + intros i f Hf. rewrite Hsucc. by apply (Hk (S i)).
Qed.

Lemma extract_succeeds ipa_path w ms ps :
  node_at (fs w) (resolve ipa_path) = Some (File (ZipArchive ms)) →
  (extract_members ms (namelist ms) [] w).1 = Ok ps →
  (extract_mobileprovision_from_ipa ipa_path w).1 = Ok ps
  ∧ fs (extract_mobileprovision_from_ipa ipa_path w).2
    = fs (extract_members ms (namelist ms) [] w).2.
Proof.
  intros Hzip Hloop. rewrite extract_run, ZipFile_run, Hzip.
  destruct (extract_members ms (namelist ms) [] w) as [r w1].
  simpl in *. subst r. by destruct ps.
Qed.

Lemma extract_contents ipa_path w ms ps :
  node_at (fs w) (resolve ipa_path) = Some (File (ZipArchive ms)) →
  (extract_members ms (namelist ms) [] w).1 = Ok ps →
  Forall clean (matching (namelist ms)) →
  no_dir_at_paths (fs w) (matching (namelist ms)) →
  no_clash (matching (namelist ms)) →
  ∀ i file, matching (namelist ms) !! i = Some file →
    ∃ c, getinfo ms file = Some (Some c)
         ∧ node_at (fs (extract_mobileprovision_from_ipa ipa_path w).2)
             (resolve (extract_path i file)) = Some (File c).
Proof.
  intros Hzip Hloop Hclean Hdir Hclash.
  destruct (extract_succeeds _ _ _ _ Hzip Hloop) as [_ ->].
  apply (extract_members_contents ms (namelist ms) [] 0%nat w ps); try done.
  - intros i file Hfile. unfold no_dir_at_paths in Hdir.
    eapply (proj1 (Forall_lookup _ _) Hdir).
    by rewrite expected_paths_lookup, Hfile.
  - intros i j fi fj Hi Hj. unfold no_clash in Hclash.
    pose proof (proj1 (Forall_lookup _ _) Hclash i fi Hi) as Hfi.
    eapply (proj1 (Forall_lookup _ _) Hfi).
    by rewrite expected_paths_lookup, Hj.
Qed.


End Extraction.

(** ** Properties of the walker and of [main] *)

Section Walker.

Variable now : datetime.
Variable tool : string → string → gmap loc node → run_outcome * gmap loc node.

Lemma for_each_returns {A} (xs : list A) (body : A → M unit) :
  (∀ x w, returns (body x) w) → ∀ w, returns (for_each xs body) w.
Proof.
  intros Hbody. induction xs as [|x xs IH]; intros w.
  - by exists ().
  - unfold returns in *. simpl. unfold mbind, M_bind.
    destruct (Hbody x w) as [[] Hx].
    destruct (body x w) as [r w1]. simpl in Hx. subst r. apply IH.
Qed.

Lemma check_expiry_returns file_path w :
  tool_runs tool → returns (check_expiry now tool file_path) w.
Proof.
  intros Htool. specialize (Htool file_path (temp_plist file_path) (fs w)).
  unfold returns. rewrite check_expiry_run. simpl.
  destruct (tool file_path (temp_plist file_path) (fs w)) as [[rc err|e] f'];
    simpl in *; [|done].
  case_bool_decide as Hrc; [|eauto]. specialize (Htool Hrc).
  unfold after_decode, is_dir in *.
  destruct (node_at f' _) as [[|]|]; eauto. done.
Qed.

(** How [process_file] treats an archive. *)
Lemma process_file_ipa root filename w :
  endswith filename ".ipa" = true →
  process_file now tool root filename w =
  (extracted_paths ← extract_mobileprovision_from_ipa (os_path_join root filename);
   for_each extracted_paths (check_expiry now tool)) w.
Proof.
  intros Hipa. unfold process_file.
  by rewrite (endswith_ipa _ Hipa), Hipa.
Qed.

Lemma process_file_returns root filename w :
  tool_runs tool → returns (process_file now tool root filename) w.
Proof.
  intros Htool. unfold process_file.
  destruct (endswith filename ".mobileprovision");
    [by apply check_expiry_returns|].
  destruct (endswith filename ".ipa"); [|by exists ()].
  unfold returns, mbind, M_bind.
  destruct (extract_returns (os_path_join root filename) w) as (ps & w1 & ->).
  apply (for_each_returns ps). intros. by apply check_expiry_returns.
Qed.

(** C7: an archive path that cannot be opened as a zip container makes
    [extract_mobileprovision_from_ipa] print one diagnostic and return the
    empty list, leaving the file system as it is; an archive none of whose
    member names ends with the embedded-profile name makes it print the
    single line [No embedded.mobileprovision found] and return the empty
    list, and [process_file] then does nothing more: no line of
    [check_expiry] is printed and the file system is unchanged. *)
Theorem extract_nothing ipa_path w :
  ((∀ ms, node_at (fs w) (resolve ipa_path) ≠ Some (File (ZipArchive ms))) →
   ∃ e, extract_mobileprovision_from_ipa ipa_path w
        = (Ok [], World (fs w) (out w ++ [ErrorExtracting ipa_path e])))
  ∧ (∀ ms,
       node_at (fs w) (resolve ipa_path) = Some (File (ZipArchive ms)) →
       Forall (λ n, endswith n "embedded.mobileprovision" = false) (namelist ms) →
       extract_mobileprovision_from_ipa ipa_path w
       = (Ok [], World (fs w) (out w ++ [NoEmbedded ipa_path]))
       ∧ ∀ root filename,
           os_path_join root filename = ipa_path →
           endswith filename ".ipa" = true →
           process_file now tool root filename w
           = (Ok (), World (fs w) (out w ++ [NoEmbedded ipa_path]))).
Proof.
  split.
  - intros Hnot. rewrite extract_run, ZipFile_run.
    destruct (node_at (fs w) (resolve ipa_path)) as [[[b|v|ms]|]|]; eauto.
    by destruct (Hnot ms).
  - intros ms Hzip Hnames.
    assert (extract_mobileprovision_from_ipa ipa_path w
            = (Ok [], World (fs w) (out w ++ [NoEmbedded ipa_path]))) as Hrun.
    { rewrite extract_run, ZipFile_run, Hzip.
      by rewrite extract_members_no_match. }
    split; [done|]. intros root filename <- Hipa.
    rewrite process_file_ipa by done. unfold mbind, M_bind.
    by rewrite Hrun.
Qed.

(** [check_expiry] removes nothing but the decoded document: its input is
    still there when the tool has left it alone. *)
Lemma check_expiry_keeps_input file_path w :
  resolve file_path ≠ resolve (temp_plist file_path) →
  node_at (tool file_path (temp_plist file_path) (fs w)).2 (resolve file_path)
  = node_at (fs w) (resolve file_path) →
  node_at (fs (check_expiry now tool file_path w).2) (resolve file_path)
  = node_at (fs w) (resolve file_path).
Proof.
  intros Hne Htool. rewrite check_expiry_run. simpl.
  destruct (tool file_path (temp_plist file_path) (fs w)) as [[rc err|e] f'];
    simpl in *.
  - case_bool_decide; [|done]. unfold after_decode.
    destruct (node_at f' (resolve (temp_plist file_path))) as [[|]|];
      simpl; [|done..].
    by rewrite node_at_delete_ne.
  - by destruct (is_CalledProcessError e).
Qed.

Lemma resolve_TEMP_DIR : resolve TEMP_DIR = ["temp_extracted"].
Proof. reflexivity. Qed.

(** [main] ends by removing the scratch directory. *)
Lemma main_removes_scratch walk w w' :
  main now tool walk w = (Ok (), w') →
  exists_at (fs w') (resolve TEMP_DIR) = false.
Proof.
  unfold main. unfold mbind at 1 2 3 4, M_bind at 1 2 3 4.
  destruct (os_path_exists TEMP_DIR w) as [[b|e] w1]; [|done].
  destruct ((if b then shutil_rmtree TEMP_DIR else mret ()) w1)
    as [[[]|e] w2]; [|done].
  destruct (os_makedirs TEMP_DIR w2) as [[[]|e] w3]; [|done].
  destruct (process_directory now tool walk w3) as [[[]|e] w4]; [|done].
  unfold os_path_exists, shutil_rmtree. unfold_monad.
  rewrite resolve_TEMP_DIR. unfold exists_at.
  destruct (node_at (fs w4) ["temp_extracted"]) as [[c|]|] eqn:Hk; simpl;
    rewrite ?Hk; intros [= <-]; simpl.
  - unfold node_at. rewrite map_lookup_filter_None_2; [done|].
    right. intros n _. simpl. unfold below. by rewrite bool_decide_true.
  - by rewrite Hk.
Qed.

End Walker.

(** ** One instant for the whole run *)

Section OneInstant.

Variable now : datetime.

Lemma prints_bind P {A B} (m : M A) (k : A → M B) :
  prints P m → (∀ a, prints P (k a)) → prints P (m ≫= k).
Proof.
  intros Hm Hk w. unfold mbind, M_bind.
  destruct (Hm w) as (ls1 & H1 & HP1).
  destruct (m w) as [[a|e] w1]; simpl in *; [|eauto].
  destruct (Hk a w1) as (ls2 & H2 & HP2).
  exists (ls1 ++ ls2). rewrite H2, H1, <-app_assoc.
  split; [done|]. by apply Forall_app.
Qed.

Lemma prints_ret P {A} (a : A) : prints P (mret a : M A).
Proof. intros w. exists []. by rewrite app_nil_r. Qed.

Lemma prints_for_each P {A} (xs : list A) (body : A → M unit) :
  (∀ x, prints P (body x)) → prints P (for_each xs body).
Proof.
  intros Hbody. induction xs as [|x xs IH]; simpl; [apply prints_ret|].
  apply prints_bind; [apply Hbody|intros _; apply IH].
Qed.

Variable tool : string → string → gmap loc node → run_outcome * gmap loc node.

Lemma judged_report file_path n : judged now (report now file_path n).
Proof.
  unfold report. destruct n as [[[b|v|ms]|]|]; try done.
  destruct v as [d|l|s|z|b|bs|t]; try done.
  destruct (d !! "ExpirationDate") as [[]|]; simpl; try done.
  all: by case_match.
Qed.

Lemma prints_check_expiry file_path :
  prints (judged now) (check_expiry now tool file_path).
Proof.
  intros w. rewrite check_expiry_run. simpl.
  destruct (tool file_path (temp_plist file_path) (fs w)) as [[rc err|e] f'];
    simpl.
  - case_bool_decide.
    + rewrite out_after_decode. eexists; split; [done|].
      apply Forall_singleton, judged_report.
    + eexists; split; [done|]. by repeat constructor.
  - destruct (is_CalledProcessError e); simpl.
    + eexists; split; [done|]. by repeat constructor.
    + exists []. by rewrite app_nil_r.
Qed.

Lemma prints_extract ipa_path :
  prints (judged now) (extract_mobileprovision_from_ipa ipa_path).
Proof.
  intros w. rewrite extract_run, ZipFile_run.
  destruct (node_at (fs w) (resolve ipa_path)) as [[[b|v|ms]|]|]; simpl;
    try (eexists [_]; split; [done|by repeat constructor]).
  pose proof (silent_extract_members ms (namelist ms) [] w) as Hout.
  destruct (extract_members ms (namelist ms) [] w) as [[[|p ps]|e] w1]; simpl in *.
  - eexists [_]; split; [done|by repeat constructor].
  - exists []. by rewrite app_nil_r.
  - eexists [_]; split; [done|by repeat constructor].
Qed.

Lemma prints_process_directory walk :
  prints (judged now) (process_directory now tool walk).
Proof.
  apply prints_for_each. intros entry. apply prints_for_each. intros filename.
  unfold process_file. repeat case_match.
  - apply prints_check_expiry.
  - apply prints_bind; [apply prints_extract|intros ps].
    apply prints_for_each. intros p. apply prints_check_expiry.
  - apply prints_ret.
Qed.

End OneInstant.

(** C9: the captured instant is the only clock of a run: every verdict line
    [process_directory] prints, for whatever file, carries the status that
    the comparison with that one instant gives; and two runs of
    [check_expiry] on a path, with the same instant, in which the tool ends
    alike and leaves the same decoded document, print identical lines,
    whatever else differs between the two worlds. *)
Theorem verdicts_deterministic now :
  (∀ tool walk w,
     ∃ ls, out (process_directory now tool walk w).2 = out w ++ ls
           ∧ Forall (judged now) ls)
  ∧ (∀ tool1 tool2 file_path w1 w2,
       (tool1 file_path (temp_plist file_path) (fs w1)).1
       = (tool2 file_path (temp_plist file_path) (fs w2)).1 →
       node_at (tool1 file_path (temp_plist file_path) (fs w1)).2
         (resolve (temp_plist file_path))
       = node_at (tool2 file_path (temp_plist file_path) (fs w2)).2
           (resolve (temp_plist file_path)) →
       ∃ ls, out (check_expiry now tool1 file_path w1).2 = out w1 ++ ls
             ∧ out (check_expiry now tool2 file_path w2).2 = out w2 ++ ls).
Proof.
  split.
  - intros. apply prints_process_directory.
  - intros tool1 tool2 p w1 w2 Hst Hnode.
    rewrite !check_expiry_run. simpl.
    destruct (tool1 p (temp_plist p) (fs w1)) as [o1 f1].
    destruct (tool2 p (temp_plist p) (fs w2)) as [o2 f2].
    simpl in *. subst o2. destruct o1 as [rc err|e].
    + case_bool_decide.
      * rewrite !out_after_decode, Hnode. by eexists.
      * by eexists.
    + destruct (is_CalledProcessError e); [by eexists|].
      exists []. by rewrite !app_nil_r.
Qed.

(** ** Runs on the sample worlds *)

Example run_expired :
  check_expiry 100 (Samples.decodes_to 50) "./a.mobileprovision" Samples.w0
  = (Ok (), World (fs Samples.w0)
              [Verdict "./a.mobileprovision" "EXPIRED" (Some (PDate 50))]).
Proof. vm_compute. reflexivity. Qed.

Example run_valid :
  check_expiry 100 (Samples.decodes_to 100) "./a.mobileprovision" Samples.w0
  = (Ok (), World (fs Samples.w0)
              [Verdict "./a.mobileprovision" "VALID" (Some (PDate 100))]).
Proof. vm_compute. reflexivity. Qed.

(** A value of the expiration key that is not a [datetime] gets no verdict:
    a false one counts as missing, any other one fails the comparison. *)
Example run_not_a_date :
  out (check_expiry 100 (Samples.decodes_to_value (PString "2020-01-01"))
         "./a.mobileprovision" Samples.w0).2
  = [ErrorProcessing "./a.mobileprovision" (TypeError "'<' not supported")]
  ∧ out (check_expiry 100 (Samples.decodes_to_value (PString ""))
           "./a.mobileprovision" Samples.w0).2
    = [NoExpirationDate "./a.mobileprovision"].
Proof. vm_compute. split; reflexivity. Qed.

Lemma check_expiry_verdict_witness :
  ∃ status,
    check_expiry 100 (Samples.decodes_to 50) "./a.mobileprovision" Samples.w0
    = (Ok (), World (delete (resolve (temp_plist "./a.mobileprovision"))
                       (Samples.decodes_to 50 "./a.mobileprovision"
                          (temp_plist "./a.mobileprovision") (fs Samples.w0)).2)
                (out Samples.w0
                 ++ [Verdict "./a.mobileprovision" status (Some (PDate 50))]))
    ∧ (status = "EXPIRED" ↔ 50 < 100)
    ∧ (status = "VALID" ↔ ¬ 50 < 100).
Proof.
  apply (check_expiry_verdict 100 (Samples.decodes_to 50)
           "./a.mobileprovision" Samples.w0 ""
           {[ "ExpirationDate" := PDate 50; "Name" := PString "dev" ]} 50);
    vm_compute; reflexivity.
Defined.

Lemma check_expiry_no_expiration_witness :
  check_expiry 100 Samples.decodes_without_key "./a.mobileprovision" Samples.w0
  = (Ok (), World (delete (resolve (temp_plist "./a.mobileprovision"))
                     (Samples.decodes_without_key "./a.mobileprovision"
                        (temp_plist "./a.mobileprovision") (fs Samples.w0)).2)
              (out Samples.w0 ++ [NoExpirationDate "./a.mobileprovision"])).
Proof.
  apply (check_expiry_no_expiration 100 Samples.decodes_without_key
           "./a.mobileprovision" Samples.w0 ""
           {[ "Name" := PString "dev" ]});
    vm_compute; reflexivity.
Defined.

(** C2, as stated, fails: when the tool cannot be started, the exception of
    [subprocess.run] leaves [check_expiry], the processing of the file and
    the whole of [process_directory]; the second file is never reached. *)
Lemma exception_escapes_tool_missing :
  ¬ returns (process_file 0 Samples.not_installed "." "a.mobileprovision")
      Samples.w0
  ∧ process_directory 0 Samples.not_installed
      [(".", [], ["a.mobileprovision"; "b.mobileprovision"])] Samples.w0
    = (Raise (FileNotFoundError "security"), Samples.w0).
Proof.
  split; [|vm_compute; reflexivity].
  intros [a H]. vm_compute in H. discriminate.
Qed.

Lemma decodes_to_runs t : tool_runs (Samples.decodes_to t).
Proof.
  intros p o f. unfold Samples.decodes_to.
  destruct (is_dir f (resolve o)) eqn:Hdir; simpl; [done|].
  intros _. unfold is_dir, node_at in *.
  destruct (resolve o); [done|]. by rewrite lookup_insert_eq.
Qed.

(** C3 at its failing input: the tool creates the output file and then
    exits with a non-zero status; [check_expiry] prints the two lines of a
    decode failure and returns while the decoded document is still there. *)
Theorem decode_failure_leaves_document now :
  let r := check_expiry now Samples.rejects_after_creating
             "./a.mobileprovision" Samples.w0 in
  r.1 = Ok ()
  ∧ out r.2 = [ErrorDecoding "./a.mobileprovision" "decode failed";
               FailedToDecode "./a.mobileprovision"]
  ∧ node_at (fs r.2) (resolve (temp_plist "./a.mobileprovision"))
    = Some (File (Blob "")).
Proof.
  rewrite (check_expiry_decode_failed now Samples.rejects_after_creating
             "./a.mobileprovision" Samples.w0 1 "decode failed");
    [|reflexivity|done].
  vm_compute. repeat split; reflexivity.
Qed.

Lemma extract_nothing_witness :
  (∃ e, extract_mobileprovision_from_ipa "./a.mobileprovision" Samples.w0
        = (Ok [], World (fs Samples.w0)
                    (out Samples.w0 ++ [ErrorExtracting "./a.mobileprovision" e])))
  ∧ process_file 0 Samples.rejects "." "app.ipa"
      (Samples.w_ipa (Samples.ipa ["Payload/A.app/Info.plist"]))
    = (Ok (), World (fs (Samples.w_ipa (Samples.ipa ["Payload/A.app/Info.plist"])))
                [NoEmbedded "./app.ipa"]).
Proof.
  split.
  - apply (extract_nothing 0 Samples.rejects "./a.mobileprovision" Samples.w0).
    intros ms. vm_compute. discriminate.
  - apply (extract_nothing 0 Samples.rejects "./app.ipa"
             (Samples.w_ipa (Samples.ipa ["Payload/A.app/Info.plist"])))
      with (ms := [("Payload/A.app/Info.plist", Some (Blob "Payload/A.app/Info.plist"))]);
      [vm_compute; reflexivity | repeat constructor | reflexivity | reflexivity].
Defined.

(** When the second profile of the sample archive cannot be read, the
    first one had been extracted and moved before: it stays in the scratch
    directory, unchecked. *)
Example extract_interrupted_leftover :
  node_at (fs (process_file 0 Samples.rejects "." "app.ipa"
                 (Samples.w_ipa Samples.half_readable)).2)
    (resolve "temp_extracted/embedded.mobileprovision_0")
  = Some (File (Blob "p1")).
Proof. vm_compute. reflexivity. Qed.

Lemma verdicts_deterministic_witness :
  ∃ ls,
    out (check_expiry 100 (Samples.decodes_to 50) "./a.mobileprovision" Samples.w0).2
    = out Samples.w0 ++ ls
    ∧ out (check_expiry 100 (Samples.decodes_to 50) "./a.mobileprovision"
             (Samples.w_ipa (Samples.ipa []))).2
      = out (Samples.w_ipa (Samples.ipa [])) ++ ls.
Proof.
  apply (proj2 (verdicts_deterministic 100) (Samples.decodes_to 50)
           (Samples.decodes_to 50) "./a.mobileprovision" Samples.w0
           (Samples.w_ipa (Samples.ipa [])));
    vm_compute; reflexivity.
Defined.

(** C4, as stated, fails: the profile extracted from an archive is still in
    the scratch directory when [check_expiry] has returned for it, and when
    the processing of the archive has returned. *)
Lemma extracted_profile_outlives_check :
  let w := Samples.w_ipa (Samples.ipa ["Payload/A.app/embedded.mobileprovision"]) in
  let extracted := extract_mobileprovision_from_ipa "./app.ipa" w in
  let checked :=
    check_expiry 100 (Samples.decodes_to 50)
      "temp_extracted/embedded.mobileprovision_0" extracted.2 in
  let processed := process_file 100 (Samples.decodes_to 50) "." "app.ipa" w in
  extracted.1 = Ok ["temp_extracted/embedded.mobileprovision_0"]
  ∧ checked.1 = Ok ()
  ∧ is_file (fs checked.2) (resolve "temp_extracted/embedded.mobileprovision_0") = true
  ∧ processed.1 = Ok ()
  ∧ is_file (fs processed.2) (resolve "temp_extracted/embedded.mobileprovision_0") = true.
Proof. vm_compute. repeat split; reflexivity. Qed.

(** C4 (amended): once the tool has exited with status zero, the decoded
    document is removed before [check_expiry] returns (a directory at its
    path apart); [check_expiry] does not remove the profile it is given, so
    an extracted profile stays in the scratch directory; and when [main]
    ends without an exception the scratch directory no longer exists. *)
Theorem temporary_artifacts now tool :
  (∀ file_path w stderr,
     (tool file_path (temp_plist file_path) (fs w)).1 = Completed 0 stderr →
     is_dir (tool file_path (temp_plist file_path) (fs w)).2
       (resolve (temp_plist file_path)) = false →
     ∃ w', check_expiry now tool file_path w = (Ok (), w')
           ∧ exists_at (fs w') (resolve (temp_plist file_path)) = false)
  ∧ (∀ file_path w,
       resolve file_path ≠ resolve (temp_plist file_path) →
       node_at (tool file_path (temp_plist file_path) (fs w)).2
         (resolve file_path)
       = node_at (fs w) (resolve file_path) →
       node_at (fs (check_expiry now tool file_path w).2) (resolve file_path)
       = node_at (fs w) (resolve file_path))
  ∧ (∀ walk w,
       (main now tool walk w).1 = Ok () →
       exists_at (fs (main now tool walk w).2) (resolve TEMP_DIR) = false).
Proof.
  split; [|split].
  - intros. by eapply check_expiry_cleans.
  - intros. by apply check_expiry_keeps_input.
  - intros walk w Hmain. apply (main_removes_scratch now tool walk w).
    destruct (main now tool walk w) as [r w']. simpl in *. by subst r.
Qed.

Lemma temporary_artifacts_witness :
  (∃ w', check_expiry 100 (Samples.decodes_to 50) "./a.mobileprovision" Samples.w0
         = (Ok (), w')
         ∧ exists_at (fs w') (resolve (temp_plist "./a.mobileprovision")) = false)
  ∧ node_at (fs (check_expiry 100 (Samples.decodes_to 50)
                   "./a.mobileprovision" Samples.w0).2)
      (resolve "./a.mobileprovision")
    = node_at (fs Samples.w0) (resolve "./a.mobileprovision")
  ∧ exists_at
      (fs (main 100 (Samples.decodes_to 50)
             [(".", ["temp_extracted"], ["a.ipa"; "b.ipa"; "notes.txt"])]
             Samples.w_two).2)
      (resolve TEMP_DIR) = false.
Proof.
  destruct (temporary_artifacts 100 (Samples.decodes_to 50))
    as (Hclean & Hkeep & Hmain).
  split; [|split].
  - apply (Hclean "./a.mobileprovision" Samples.w0 "");
      vm_compute; reflexivity.
  - apply (Hkeep "./a.mobileprovision" Samples.w0);
      [vm_compute; discriminate | vm_compute; reflexivity].
  - apply (Hmain [(".", ["temp_extracted"], ["a.ipa"; "b.ipa"; "notes.txt"])]
             Samples.w_two).
    vm_compute. reflexivity.
Defined.

Example run_main :
  main 100 (Samples.decodes_to 50)
    [(".", ["temp_extracted"], ["a.ipa"; "b.ipa"; "notes.txt"])] Samples.w_two
  = (Ok (),
     World (delete ["temp_extracted"] (fs Samples.w_two))
       [Verdict "temp_extracted/embedded.mobileprovision_0" "EXPIRED" (Some (PDate 50));
        Verdict "temp_extracted/embedded.mobileprovision_0" "EXPIRED" (Some (PDate 50))]).
Proof. vm_compute. reflexivity. Qed.

(** ** Disambiguation of extracted profiles *)

(** C5 at its failing input: both members of this readable archive match
    and no exception is raised, yet the move that the source comments with
    "Move to avoid overwriting if multiple files" puts the first extracted
    profile into the directory that its own extraction created at the
    disambiguated path, and the extraction of the second member overwrites
    it there.  The first returned path is a directory and the first
    profile is lost. *)
Theorem sibling_profile_overwritten :
  let w := Samples.w_ipa (ZipArchive Samples.clash_members) in
  let r := extract_mobileprovision_from_ipa "./app.ipa" w in
  let inside := ["temp_extracted"; "embedded.mobileprovision_0";
                 "embedded.mobileprovision"] in
  let w1 := (extract_members Samples.clash_members
               ["embedded.mobileprovision_0/x/embedded.mobileprovision"] [] w).2 in
  let w2 := (zip_extract Samples.clash_members
               "embedded.mobileprovision_0/embedded.mobileprovision"
               TEMP_DIR w1).2 in
  length (matching (namelist Samples.clash_members)) = 2%nat
  ∧ r.1 = Ok ["temp_extracted/embedded.mobileprovision_0";
              "temp_extracted/embedded.mobileprovision_1"]
  ∧ out r.2 = []
  ∧ node_at (fs w1) inside = Some (File (Blob "first"))
  ∧ node_at (fs w2) inside = Some (File (Blob "second"))
  ∧ node_at (fs r.2) (resolve "temp_extracted/embedded.mobileprovision_0")
    = Some Dir
  ∧ node_at (fs r.2) (resolve "temp_extracted/embedded.mobileprovision_1")
    = Some (File (Blob "second"))
  ∧ Forall (λ kn, kn.2 ≠ File (Blob "first")) (map_to_list (fs r.2)).
Proof.
  vm_compute. repeat split; try reflexivity.
  repeat constructor; discriminate.
Qed.

(** Of several members with one name [zipfile] extracts the last one,
    each time: both returned paths hold the data of the second member, and
    the first member's data is nowhere. *)
Example same_name_same_data :
  let w := Samples.w_ipa (ZipArchive Samples.same_name_members) in
  let r := extract_mobileprovision_from_ipa "./app.ipa" w in
  r.1 = Ok ["temp_extracted/embedded.mobileprovision_0";
            "temp_extracted/embedded.mobileprovision_1"]
  ∧ node_at (fs r.2) (resolve "temp_extracted/embedded.mobileprovision_0")
    = Some (File (Blob "two"))
  ∧ node_at (fs r.2) (resolve "temp_extracted/embedded.mobileprovision_1")
    = Some (File (Blob "two"))
  ∧ Forall (λ kn, kn.2 ≠ File (Blob "one")) (map_to_list (fs r.2)).
Proof.
  vm_compute. repeat split; try reflexivity.
  repeat constructor; discriminate.
Qed.

(** A member whose name no other matching member has is the one
    [getinfo] gives for that name. *)
Lemma getinfo_own (z : zip) name data :
  NoDup (matching (namelist z)) →
  endswith name "embedded.mobileprovision" = true →
  (name, data) ∈ z →
  getinfo z name = Some data.
Proof.
  intros Hnd Hname Hin. unfold getinfo.
  assert (filter (λ m : string * option content, m.1 = name) z
          = [(name, data)]) as ->; [|done].
  unfold zip in *.
  induction z as [|[n d] z IH]; [by apply elem_of_nil in Hin|].
  unfold namelist in *. rewrite fmap_cons in Hnd. simpl in Hnd.
  destruct (decide (n = name)) as [->|Hne].
  - rewrite matching_cons_true in Hnd by done.
    apply NoDup_cons in Hnd as [Hfresh _].
    rewrite filter_cons, decide_True by done.
    assert (filter (λ m : string * option content, m.1 = name) z = [])
      as Hnone.
    { destruct (filter _ z) as [|[n' d'] l] eqn:Hfilter; [done|].
      assert ((n', d') ∈ filter (λ m : string * option content, m.1 = name) z)
        as [Heq Hm]%list_elem_of_filter by (rewrite Hfilter; left).
      simpl in Heq. subst n'. exfalso. apply Hfresh.
      apply list_elem_of_filter. split; [done|].
      apply list_elem_of_fmap. by exists (name, d'). }
    rewrite Hnone. f_equal.
    apply elem_of_cons in Hin as [[= <-]|Hin]; [done|].
    exfalso. apply Hfresh. apply list_elem_of_filter. split; [done|].
    apply list_elem_of_fmap. by exists (name, data).
  - rewrite filter_cons, decide_False by done.
    apply elem_of_cons in Hin as [[= ? ?]|Hin]; [done|].
    apply IH; [|done].
    destruct (endswith n "embedded.mobileprovision") eqn:Hn.
    + rewrite matching_cons_true in Hnd by done.
      by apply NoDup_cons in Hnd as [_ ?].
    + by rewrite matching_cons_false in Hnd.
Qed.

(** X17: when the loop over the members of an archive ends without an
    exception, [extract_mobileprovision_from_ipa] returns one path per
    matching member name, in archive order, each made of the scratch
    directory, the member's base name and its index; the paths lie at
    pairwise different locations.  When moreover the matching names are
    clean, no such path is a directory beforehand and none lies on the way
    to a member's extraction target, each returned path holds on return
    the data [zipfile] extracts for its member's name, which is the last
    member of that name; when the matching names are pairwise different,
    that is every matching member's own data, so that no extracted profile
    has overwritten another. *)
Theorem extract_disambiguates ipa_path w ms :
  node_at (fs w) (resolve ipa_path) = Some (File (ZipArchive ms)) →
  returns (extract_members ms (namelist ms) []) w →
  let files := matching (namelist ms) in
  let r := extract_mobileprovision_from_ipa ipa_path w in
  r.1 = Ok (expected_paths 0 files)
  ∧ length (expected_paths 0 files) = length files
  ∧ NoDup (expected_paths 0 files)
  ∧ NoDup (resolve <$> expected_paths 0 files)
  ∧ (Forall clean files → no_dir_at_paths (fs w) files → no_clash files →
     (∀ i file, files !! i = Some file →
        ∃ c, getinfo ms file = Some (Some c)
             ∧ node_at (fs r.2) (resolve (extract_path i file))
               = Some (File c))
     ∧ (NoDup files →
        ∀ file data,
          (file, data) ∈ ms →
          endswith file "embedded.mobileprovision" = true →
          ∃ i c, files !! i = Some file ∧ data = Some c
                 ∧ node_at (fs r.2) (resolve (extract_path i file))
                   = Some (File c))).
Proof.
  intros Hzip [ps Hloop] files r.
  pose proof (extract_members_paths _ _ _ _ _ Hloop) as Hps. simpl in Hps.
  destruct (extract_succeeds _ _ _ _ Hzip Hloop) as [Hr _].
  subst files r. split; [by rewrite Hr, Hps|].
  split; [apply length_expected_paths|].
  split; [eapply NoDup_fmap_1, NoDup_expected_paths|].
  split; [apply NoDup_expected_paths|].
  intros Hclean Hdir Hclash.
  pose proof (extract_contents _ _ _ _ Hzip Hloop Hclean Hdir Hclash)
    as Hcontents.
  split; [done|]. intros Hnd file data Hin Hfile.
  assert (file ∈ matching (namelist ms)) as [i Hi]%list_elem_of_lookup_1.
  { apply list_elem_of_filter. split; [done|].
    apply list_elem_of_fmap. by exists (file, data). }
  destruct (Hcontents i file Hi) as (c & Hinfo & Hnode).
  rewrite (getinfo_own ms file data Hnd Hfile Hin) in Hinfo.
  injection Hinfo as ->. by exists i, c.
Qed.

Lemma extract_disambiguates_witness :
  let w := Samples.w_ipa (ZipArchive Samples.two_profiles) in
  let files := matching (namelist Samples.two_profiles) in
  let r := extract_mobileprovision_from_ipa "./app.ipa" w in
  r.1 = Ok (expected_paths 0 files)
  ∧ length (expected_paths 0 files) = length files
  ∧ NoDup (expected_paths 0 files)
  ∧ NoDup (resolve <$> expected_paths 0 files)
  ∧ (∀ i file, files !! i = Some file →
       ∃ c, getinfo Samples.two_profiles file = Some (Some c)
            ∧ node_at (fs r.2) (resolve (extract_path i file))
              = Some (File c))
  ∧ ∀ file data,
      (file, data) ∈ Samples.two_profiles →
      endswith file "embedded.mobileprovision" = true →
      ∃ i c, files !! i = Some file ∧ data = Some c
             ∧ node_at (fs r.2) (resolve (extract_path i file))
               = Some (File c).
Proof.
  intros w files r.
  assert (node_at (fs w) (resolve "./app.ipa")
          = Some (File (ZipArchive Samples.two_profiles))) as Hzip
    by (vm_compute; reflexivity).
  assert (returns
            (extract_members Samples.two_profiles
               (namelist Samples.two_profiles) []) w) as Hloop
    by (exists ["temp_extracted/embedded.mobileprovision_0";
                "temp_extracted/embedded.mobileprovision_1"];
        vm_compute; reflexivity).
  destruct (extract_disambiguates "./app.ipa" w Samples.two_profiles
              Hzip Hloop)
    as (Hr & Hlen & Hnd & Hloc & Hcontents).
  split; [exact Hr|]. split; [exact Hlen|].
  split; [exact Hnd|]. split; [exact Hloc|].
  destruct Hcontents as [Hget Hown];
    [apply (bool_decide_unpack _); vm_compute; exact I..|].
  split; [exact Hget|].
  apply Hown. apply (bool_decide_unpack _). vm_compute. exact I.
Defined.

(** The sample archive meets the conditions on names and scratch
    directory, and its two profiles are where the returned paths say. *)
Example run_two_profiles :
  let w := Samples.w_ipa (ZipArchive Samples.two_profiles) in
  let r := extract_mobileprovision_from_ipa "./app.ipa" w in
  r.1 = Ok ["temp_extracted/embedded.mobileprovision_0";
            "temp_extracted/embedded.mobileprovision_1"]
  ∧ node_at (fs r.2) (resolve "temp_extracted/embedded.mobileprovision_0")
    = Some (File (Blob "app"))
  ∧ node_at (fs r.2) (resolve "temp_extracted/embedded.mobileprovision_1")
    = Some (File (Blob "ext")).
Proof. vm_compute. repeat split; reflexivity. Qed.




(** ** Further properties of the decoder and the checker *)

Section Decoder.

Variable now : datetime.
Variable tool : string → string → gmap loc node → run_outcome * gmap loc node.

Lemma decode_run file_path output_path w :
  decode_mobileprovision tool file_path output_path w =
  let r := tool file_path output_path (fs w) in
  match r.1 with
  | Completed rc stderr =>
      if bool_decide (rc = 0) then (Ok true, World r.2 (out w))
      else (Ok false, World r.2 (out w ++ [ErrorDecoding file_path stderr]))
  | NotStarted e =>
      if is_CalledProcessError e
      then (Ok false, World r.2 (out w ++ [ErrorDecoding file_path (stderr_of e)]))
      else (Raise e, World r.2 (out w))
  end.
Proof.
  unfold decode_mobileprovision, subprocess_run. unfold_monad. simpl.
  destruct (tool file_path output_path (fs w)) as [[rc err|e] f']; simpl.
  - by case_bool_decide.
  - by destruct (is_CalledProcessError e).
Qed.

(** X1: [decode_mobileprovision] returns [True] exactly when the tool
    exits with status zero, and then prints nothing; on a non-zero exit it
    returns [False] after printing one [Error decoding] line with the
    tool's standard error; it raises only what [subprocess.run] raised when
    the tool could not be started; in every case the file system is the
    one the tool left. *)
Theorem decode_outcome file_path output_path w :
  let r := tool file_path output_path (fs w) in
  let d := decode_mobileprovision tool file_path output_path w in
  (d.1 = Ok true ↔ ∃ stderr, r.1 = Completed 0 stderr)
  ∧ (d.1 = Ok true → out d.2 = out w)
  ∧ (∀ rc stderr, r.1 = Completed rc stderr → rc ≠ 0 →
       d.1 = Ok false ∧ out d.2 = out w ++ [ErrorDecoding file_path stderr])
  ∧ (∀ e, d.1 = Raise e → r.1 = NotStarted e ∧ out d.2 = out w)
  ∧ fs d.2 = r.2.
Proof.
  intros r d. subst d r. rewrite decode_run. simpl.
  destruct (tool file_path output_path (fs w)) as [[rc err|e] f']; simpl.
  - case_bool_decide as Hrc; simpl.
    + subst rc. split; [split; eauto|]. split; [done|].
      split; [by intros rc' err' [= <- <-] ?|]. done.
    + split; [split; [done|by intros [? [= ? _]]]|]. split; [done|].
      split; [by intros rc' err' [= <- <-] _|]. done.
  - destruct (is_CalledProcessError e) eqn:He; simpl.
    + split; [split; [done|by intros [? ?]]|]. done.
    + split; [split; [done|by intros [? ?]]|]. split; [done|].
      split; [done|]. split; [|done]. by intros e' [= <-].
Qed.

(** X2: whenever the tool was started, [check_expiry] prints exactly one
    status line about its file, and it is the last line it prints: alone
    after a successful decode, preceded by one [Error decoding] line, and
    then equal to [Failed to decode], after a failed one. *)
Theorem check_expiry_one_status_line file_path w :
  let r := tool file_path (temp_plist file_path) (fs w) in
  started r.1 →
  ∃ pre l,
    out (check_expiry now tool file_path w).2 = out w ++ pre ++ [l]
    ∧ status_line file_path l
    ∧ ((pre = [] ∧ ∃ stderr, r.1 = Completed 0 stderr)
       ∨ (∃ stderr, pre = [ErrorDecoding file_path stderr])
         ∧ l = FailedToDecode file_path).
Proof.
  intros r Hstarted. subst r. rewrite check_expiry_run. simpl.
  destruct (tool file_path (temp_plist file_path) (fs w)) as [[rc err|e] f'];
    simpl in *.
  - case_bool_decide as Hrc.
    + subst rc. rewrite out_after_decode. exists [], (report now file_path
        (node_at f' (resolve (temp_plist file_path)))).
      split; [done|]. split; [|left; eauto].
      unfold report. repeat case_match; done.
    + exists [ErrorDecoding file_path err], (FailedToDecode file_path).
      split; [done|]. split; [done|]. right. eauto.
  - rewrite Hstarted.
    exists [ErrorDecoding file_path (stderr_of e)], (FailedToDecode file_path).
    split; [done|]. split; [done|]. right. eauto.
Qed.

(** X3: a value of the expiration key that is not a [datetime] never gets
    a verdict: when it is false (empty string, zero, [False], empty
    collection) the file is reported as having no expiration date, and
    otherwise the comparison fails and the file is reported with
    [Error processing]; in both cases [check_expiry] returns. *)
Theorem check_expiry_not_a_date file_path w stderr d v :
  (tool file_path (temp_plist file_path) (fs w)).1 = Completed 0 stderr →
  node_at (tool file_path (temp_plist file_path) (fs w)).2
    (resolve (temp_plist file_path))
    = Some (File (PlistDoc (PDict d))) →
  d !! "ExpirationDate" = Some v →
  (∀ t, v ≠ PDate t) →
  (check_expiry now tool file_path w).1 = Ok ()
  ∧ out (check_expiry now tool file_path w).2
    = out w ++ [if truthy (Some v)
                then ErrorProcessing file_path (TypeError "'<' not supported")
                else NoExpirationDate file_path].
Proof.
  intros Hrun Hnode Hd Hv. rewrite check_expiry_run. simpl. rewrite Hrun.
  simpl. rewrite out_after_decode. unfold after_decode, report.
  rewrite Hnode, Hd. split; [done|].
  destruct v as [d'|l|s|z|[]|bs|t]; simpl; try done;
    try by case_bool_decide.
  by destruct (Hv t).
Qed.

(** X4: when the tool reports success but the decoded document is missing
    or is not a property list holding a dict, [check_expiry] reports the
    file with one [Error processing] line, returns, and leaves nothing at
    the decoded document's path. *)
Theorem check_expiry_unreadable file_path w stderr :
  let f' := (tool file_path (temp_plist file_path) (fs w)).2 in
  let k := resolve (temp_plist file_path) in
  (tool file_path (temp_plist file_path) (fs w)).1 = Completed 0 stderr →
  node_at f' k ≠ Some Dir →
  (∀ d, node_at f' k ≠ Some (File (PlistDoc (PDict d)))) →
  ∃ e,
    (check_expiry now tool file_path w).1 = Ok ()
    ∧ out (check_expiry now tool file_path w).2
      = out w ++ [ErrorProcessing file_path e]
    ∧ exists_at (fs (check_expiry now tool file_path w).2) k = false.
Proof.
  intros f' k Hrun Hdir Hdict. subst f' k.
  rewrite check_expiry_run. simpl. rewrite Hrun. simpl.
  destruct (tool file_path (temp_plist file_path) (fs w)) as [o f'].
  simpl in *. unfold after_decode, report, exists_at.
  destruct (resolve (temp_plist file_path)) as [|c k] eqn:Hk; [done|].
  destruct (node_at f' (c :: k)) as [[[b|v|ms]|]|] eqn:Hnode; simpl;
    try done.
  - eexists. repeat split. unfold node_at. by rewrite lookup_delete_eq.
  - destruct v as [d|l|s|z|b|bs|t]; [by destruct (Hdict d)|..];
      eexists; repeat split; unfold node_at; by rewrite lookup_delete_eq.
  - eexists. repeat split. unfold node_at. by rewrite lookup_delete_eq.
  - eexists. repeat split. by rewrite Hnode.
Qed.

(** X5: apart from what the tool does, [check_expiry] changes the file
    system at the decoded document's path only: every other location is as
    the tool left it, whatever the outcome. *)
Theorem check_expiry_frame file_path w k :
  k ≠ resolve (temp_plist file_path) →
  node_at (fs (check_expiry now tool file_path w).2) k
  = node_at (tool file_path (temp_plist file_path) (fs w)).2 k.
Proof.
  intros Hk. rewrite check_expiry_run. simpl.
  destruct (tool file_path (temp_plist file_path) (fs w)) as [[rc err|e] f'];
    simpl.
  - case_bool_decide; [|done]. unfold after_decode.
    destruct (node_at f' (resolve (temp_plist file_path))) as [[|]|];
      simpl; [|done..].
    by rewrite node_at_delete_ne.
  - by destruct (is_CalledProcessError e).
Qed.

(** X6: a successful check leaves no residue: when the tool only creates
    the decoded document, at a path where nothing was, the file system
    after [check_expiry] is at every location what it was before. *)
Theorem check_expiry_no_residue file_path w stderr :
  let r := tool file_path (temp_plist file_path) (fs w) in
  let k := resolve (temp_plist file_path) in
  r.1 = Completed 0 stderr →
  node_at (fs w) k = None →
  is_file r.2 k = true →
  (∀ k', k' ≠ k → node_at r.2 k' = node_at (fs w) k') →
  (check_expiry now tool file_path w).1 = Ok ()
  ∧ ∀ k', node_at (fs (check_expiry now tool file_path w).2) k'
          = node_at (fs w) k'.
Proof.
  intros r k Hrun Hfree Hfile Hframe. subst r k.
  rewrite check_expiry_run. simpl. rewrite Hrun. simpl.
  destruct (tool file_path (temp_plist file_path) (fs w)) as [o f'].
  simpl in *. unfold after_decode, is_file in *.
  destruct (resolve (temp_plist file_path)) as [|c k] eqn:Hk; [done|].
  destruct (node_at f' (c :: k)) as [[|]|] eqn:Hnode; try done. simpl.
  split; [done|]. intros k'. destruct (decide (k' = c :: k)) as [->|Hne].
  - rewrite Hfree. unfold node_at. by rewrite lookup_delete_eq.
  - rewrite node_at_delete_ne by done. by apply Hframe.
Qed.

End Decoder.

(** ** Further properties of the extraction *)

Section ExtractionFrames.

Lemma append_assoc_str (a b c : string) : (a +:+ b) +:+ c = a +:+ b +:+ c.
Proof. apply chars_inj. by rewrite !chars_app, app_assoc. Qed.

Lemma valid_of_underscore s : "_"%char ∈ chars s → invalid_path_part s = false.
Proof.
  intros Hin. unfold invalid_path_part, is_dot.
  repeat (case_bool_decide;
          [subst s; simpl in Hin; set_unfold; intuition discriminate|]).
  done.
Qed.

Lemma underscore_in_scratch_name n file :
  "_"%char ∈ chars (scratch_name n file).
Proof. rewrite chars_scratch_name. apply elem_of_app. right. by left. Qed.

Lemma extract_path_eq n file :
  extract_path n file = TEMP_DIR +:+ "/" +:+ scratch_name n file.
Proof.
  unfold extract_path.
  by rewrite join_TEMP_DIR by (apply startswith_sep_false, scratch_name_no_sep).
Qed.

(** Whatever is joined to a disambiguated path, the result lies in the
    scratch directory. *)
Lemma join_extract_path_below n file b :
  sep ∉ chars b →
  resolve TEMP_DIR `prefix_of` resolve (os_path_join (extract_path n file) b).
Proof.
  intros Hb. change (resolve TEMP_DIR) with ["temp_extracted"].
  pose proof (scratch_name_no_sep n file) as Hname.
  pose proof (valid_of_underscore _ (underscore_in_scratch_name n file)) as Hv.
  unfold os_path_join. rewrite (startswith_sep_false b Hb).
  rewrite extract_path_eq.
  destruct (_ || _).
  - rewrite !append_assoc_str. rewrite resolve_in_TEMP_DIR.
    + by exists (split_sep (scratch_name n file +:+ b)).
    + rewrite split_sep_single.
      * repeat constructor. apply valid_of_underscore.
        rewrite chars_app. apply elem_of_app. left.
        apply underscore_in_scratch_name.
      * rewrite chars_app. intros [?|?]%elem_of_app; done.
  - rewrite !append_assoc_str. unfold resolve.
    change (startswith _ "/") with false.
    rewrite !split_sep_join. change (split_sep TEMP_DIR) with ["temp_extracted"].
    rewrite (split_sep_single _ Hname), (split_sep_single _ Hb). simpl.
    unfold norm_step at 2 3. simpl.
    unfold invalid_path_part in Hv. apply orb_false_iff in Hv as [Hv1 Hv2].
    rewrite Hv1, Hv2. unfold norm_step.
    destruct (is_dot b); [by exists [scratch_name n file]|].
    repeat case_bool_decide; try done;
      first [by exists [scratch_name n file; b]
            |by exists [scratch_name n file] |by exists []].
Qed.

(** Extracting a member changes only locations on the way to the target,
    whatever the outcome. *)
Lemma zip_extract_frame z name path w k :
  ¬ k `prefix_of` resolve path ++ arcname name →
  node_at (fs (zip_extract z name path w).2) k = node_at (fs w) k.
Proof.
  intros Hk. unfold zip_extract.
  destruct (getinfo z name) as [data|]; [|done].
  case_bool_decide; [done|].
  set (target := resolve path ++ arcname name) in *.
  assert (∀ c w0,
    node_at (fs (write_file target c w0).2) k = node_at (fs w0) k) as Hwf.
  { intros c w0. unfold write_file. unfold_monad. simpl.
    repeat case_match; try done. simpl.
    apply node_at_insert_ne. by intros <-. }
  set (finish := match data with
                 | Some c => write_file target c
                 | None => write_file target (Blob "");;
                           raise (BadZipFile "cannot read member")
                 end).
  assert (∀ w0, node_at (fs (finish w0).2) k = node_at (fs w0) k) as Hfin.
  { intros w0. unfold finish. destruct data as [c|]; [apply Hwf|].
    unfold mbind, M_bind, raise. specialize (Hwf (Blob "") w0).
    by destruct (write_file target (Blob "") w0) as [[[]|e] w1]. }
  clearbody finish. unfold_monad.
  destruct (exists_at (fs w) (parent target)) eqn:Hex; simpl.
  - apply Hfin.
  - unfold makedirs_at. unfold_monad. rewrite Hex. simpl.
    destruct (mkdirs_from [] (parent target) (fs w)) as [f_mk|e] eqn:Hmk;
      simpl; [|done].
    rewrite Hfin. simpl. eapply mkdirs_from_frame; [done|].
    simpl. by intros ?%prefix_parent.
Qed.

Lemma zip_extract_info z name path w w1 :
  zip_extract z name path w = (Ok (), w1) →
  ∃ c, getinfo z name = Some (Some c).
Proof.
  unfold zip_extract, mbind, M_bind.
  destruct (getinfo z name) as [[c|]|]; [by eexists|..]; [|done].
  case_bool_decide; [done|]. unfold get_fs, raise.
  match goal with
  | |- context [(if ?b then ?x else ?y) w] =>
      destruct ((if b then x else y) w) as [[[]|?] w0]; [|done]
  end.
  by destruct (write_file _ _ w0) as [[[]|?] ?].
Qed.

(** Moving a regular file changes the source, the destination and, when
    the destination is a directory, the entry of that name in it. *)
Lemma shutil_move_frame src dst c w k :
  node_at (fs w) (resolve src) = Some (File c) →
  k ≠ resolve src → k ≠ resolve dst →
  k ≠ resolve (os_path_join dst (os_path_basename (rstrip_sep src))) →
  node_at (fs (shutil_move src dst w).2) k = node_at (fs w) k.
Proof.
  intros Hsrc Hk1 Hk2 Hk3.
  assert (∀ d, k ≠ d →
    node_at (fs (rename_at (resolve src) d w).2) k = node_at (fs w) k) as Hren.
  { intros d Hd. unfold rename_at. unfold_monad. simpl. rewrite Hsrc.
    repeat case_match; simpl; try done.
    by rewrite node_at_insert_ne, node_at_delete_ne. }
  unfold shutil_move. unfold_monad. simpl.
  repeat case_match; simpl; try done; by apply Hren.
Qed.

(** A move that fails changes nothing. *)
Lemma shutil_move_raise src dst w e :
  (shutil_move src dst w).1 = Raise e → (shutil_move src dst w).2 = w.
Proof.
  unfold shutil_move, rename_at. unfold_monad. simpl.
  repeat case_match; simpl; done.
Qed.

(** One step of the loop, for a clean member name, stays inside the
    scratch directory, whatever its outcome. *)
Lemma extract_one_outside z file n w k :
  clean file →
  ¬ resolve TEMP_DIR `prefix_of` k →
  node_at (fs (extract_one z file n w).2) k = node_at (fs w) k.
Proof.
  intros Hclean Hk. destruct k as [|c0 k0]; [done|].
  assert (∀ l, ¬ c0 :: k0 `prefix_of` resolve TEMP_DIR ++ l) as Hpre.
  { intros l [k' Heq]. apply Hk. change (resolve TEMP_DIR) with ["temp_extracted"] in *.
    simpl in Heq. injection Heq as <- _. by exists k0. }
  unfold extract_one, mbind, M_bind.
  pose proof (zip_extract_frame z file TEMP_DIR w (c0 :: k0) (Hpre _)) as Hzip.
  destruct (zip_extract z file TEMP_DIR w) as [[[]|e] w1] eqn:Hrun; [|done].
  simpl in Hzip. rewrite <-Hzip.
  destruct (zip_extract_info _ _ _ _ _ Hrun) as [c Hinfo].
  destruct (zip_extract_run _ _ _ _ _ Hinfo Hrun) as (f_mk & Hw1 & _).
  apply (shutil_move_frame _ _ c).
  - rewrite resolve_clean_member, Hw1 by done. by apply node_at_insert_eq.
  - rewrite resolve_clean_member by done. intros Heq.
    by apply (Hpre (arcname file)); rewrite Heq.
  - rewrite resolve_extract_path. intros Heq. apply Hk. rewrite Heq.
    by eexists.
  - intros Heq. apply Hk. rewrite Heq.
    apply join_extract_path_below, basename_no_sep.
Qed.

Lemma extract_members_outside z names : ∀ acc w k,
  Forall clean (matching names) →
  ¬ resolve TEMP_DIR `prefix_of` k →
  node_at (fs (extract_members z names acc w).2) k = node_at (fs w) k.
Proof.
  induction names as [|file names IH]; intros acc w k Hclean Hk; [done|].
  rewrite extract_members_cons.
  destruct (endswith file "embedded.mobileprovision") eqn:Hfile;
    [|rewrite matching_cons_false in Hclean by done; by apply IH].
  rewrite matching_cons_true in Hclean by done.
  inversion_clear Hclean as [|?? Hcfile Hcrest].
  pose proof (extract_one_outside z file (length acc) w k Hcfile Hk) as Hone.
  destruct (extract_one z file (length acc) w) as [[[]|e] w1]; [|done].
  simpl in Hone. rewrite <-Hone. by apply IH.
Qed.

Lemma extract_fs ipa_path w :
  fs (extract_mobileprovision_from_ipa ipa_path w).2
  = match node_at (fs w) (resolve ipa_path) with
    | Some (File (ZipArchive ms)) =>
        fs (extract_members ms (namelist ms) [] w).2
    | _ => fs w
    end.
Proof.
  rewrite extract_run, ZipFile_run.
  destruct (node_at (fs w) (resolve ipa_path)) as [[[b|v|ms]|]|]; try done.
  by destruct (extract_members ms (namelist ms) [] w) as [[[|p ps]|e] w1].
Qed.

End ExtractionFrames.

Section ExtractionOutcome.

(** X7: [extract_mobileprovision_from_ipa] never raises, whatever lies at
    the path.  It prints exactly one line when it returns the empty list
    (the notice that the archive has no embedded profile, or the diagnostic
    of an exception), and nothing when it returns paths. *)
Theorem extract_diagnostics ipa_path w :
  ∃ paths,
    (extract_mobileprovision_from_ipa ipa_path w).1 = Ok paths
    ∧ (paths = []
       ∧ (∃ l, out (extract_mobileprovision_from_ipa ipa_path w).2
               = out w ++ [l]
               ∧ (l = NoEmbedded ipa_path
                  ∨ ∃ e, l = ErrorExtracting ipa_path e))
       ∨ paths ≠ []
         ∧ out (extract_mobileprovision_from_ipa ipa_path w).2 = out w).
Proof.
  rewrite extract_run, ZipFile_run.
  destruct (node_at (fs w) (resolve ipa_path)) as [[[b|v|ms]|]|];
    try (exists []; split; [done|left]; split; [done|]; eauto).
  pose proof (silent_extract_members ms (namelist ms) [] w) as Hout.
  destruct (extract_members ms (namelist ms) [] w) as [[[|p ps]|e] w1];
    simpl in *.
  - exists []. split; [done|left]. split; [done|]. eauto.
  - exists (p :: ps). split; [done|right]. by split.
  - exists []. split; [done|left]. split; [done|]. eauto.
Qed.

(** X8: when the matching member names of the archive are clean (no
    empty, [.] or [..] component), the extraction stays inside the scratch
    directory: every location that is not below [TEMP_DIR] is as before,
    whether the extraction succeeds or is interrupted. *)
Theorem extract_stays_in_scratch ipa_path w k :
  (∀ ms, node_at (fs w) (resolve ipa_path) = Some (File (ZipArchive ms)) →
         Forall clean (matching (namelist ms))) →
  ¬ resolve TEMP_DIR `prefix_of` k →
  node_at (fs (extract_mobileprovision_from_ipa ipa_path w).2) k
  = node_at (fs w) k.
Proof.
  intros Hclean Hk. rewrite extract_fs.
  destruct (node_at (fs w) (resolve ipa_path)) as [[[b|v|ms]|]|]; try done.
  by apply extract_members_outside; [apply Hclean|].
Qed.

(** X9: every path that [extract_mobileprovision_from_ipa] returns names a
    direct entry of the scratch directory: the [i]-th path is [TEMP_DIR]
    joined with the base name of a matching member and the index [i],
    whatever directories the member name had. *)
Theorem extract_paths_flat ipa_path w :
  ∃ paths,
    (extract_mobileprovision_from_ipa ipa_path w).1 = Ok paths
    ∧ ∀ i p, paths !! i = Some p →
        ∃ file,
          endswith file "embedded.mobileprovision" = true
          ∧ p = extract_path i file
          ∧ resolve p = resolve TEMP_DIR ++ [scratch_name i file]
          ∧ sep ∉ chars (scratch_name i file).
Proof.
  rewrite extract_run, ZipFile_run.
  destruct (node_at (fs w) (resolve ipa_path)) as [[[b|v|ms]|]|];
    try (by exists []).
  destruct (extract_members ms (namelist ms) [] w) as [[ps|e] w1] eqn:Hrun;
    [|by exists []].
  assert (ps = expected_paths 0 (matching (namelist ms))) as Hps.
  { apply (extract_members_paths ms (namelist ms) [] w). by rewrite Hrun. }
  exists ps. split; [by destruct ps|].
  intros i p. rewrite Hps, expected_paths_lookup. simpl.
  destruct (matching (namelist ms) !! i) as [file|] eqn:Hfile; [|done].
  intros [= <-]. exists file.
  apply list_elem_of_lookup_2, list_elem_of_filter in Hfile as [Hend _].
  split; [done|]. split; [done|].
  split; [apply resolve_extract_path|apply scratch_name_no_sep].
Qed.

End ExtractionOutcome.

(** ** Further properties of the walker and of [main] *)

Section WalkerOutcome.

Variable now : datetime.
Variable tool : string → string → gmap loc node → run_outcome * gmap loc node.

Lemma for_each_ext {A} (xs : list A) (body body' : A → M unit) w :
  (∀ x w, body x w = body' x w) → for_each xs body w = for_each xs body' w.
Proof.
  intros Hext. revert w. induction xs as [|x xs IH]; intros w; [done|].
  simpl. unfold mbind, M_bind. rewrite Hext.
  by destruct (body' x w) as [[[]|e] w1].
Qed.

Lemma for_each_fmap {A B} (g : A → B) (xs : list A) (body : B → M unit) w :
  for_each (g <$> xs) body w = for_each xs (λ x, body (g x)) w.
Proof.
  revert w. induction xs as [|x xs IH]; intros w; [done|].
  simpl. unfold mbind, M_bind.
  by destruct (body (g x) w) as [[[]|e] w1].
Qed.

Lemma for_each_filter {A} (P : A → bool) (xs : list A) (body : A → M unit) w :
  (∀ x w, P x = false → body x w = (Ok (), w)) →
  for_each xs body w = for_each (filter (λ x, P x = true) xs) body w.
Proof.
  intros Hskip. revert w. induction xs as [|x xs IH]; intros w; [done|].
  destruct (P x) eqn:HP.
  - rewrite filter_cons_True by done. simpl. unfold mbind, M_bind.
    by destruct (body x w) as [[[]|e] w1].
  - rewrite filter_cons_False by (by rewrite HP). simpl.
    unfold mbind, M_bind. by rewrite Hskip.
Qed.

Lemma process_file_irrelevant root filename w :
  relevant filename = false → process_file now tool root filename w = (Ok (), w).
Proof.
  unfold relevant, process_file. intros [-> ->]%orb_false_iff. done.
Qed.

(** X10: [process_directory] reads neither the directory names of the
    walk nor any file whose name ends in neither suffix: it runs exactly
    as on the walk reduced to the dispatched file names. *)
Theorem process_directory_dispatch walk w :
  process_directory now tool walk w
  = process_directory now tool (dispatched walk) w.
Proof.
  unfold process_directory, dispatched. rewrite for_each_fmap. simpl.
  apply for_each_ext. intros [[root dirs] files] w1. simpl.
  apply (for_each_filter relevant). intros. by apply process_file_irrelevant.
Qed.

(** *** One status line per checked profile *)

Lemma status_of_report file_path n :
  status_of (report now file_path n) = Some file_path.
Proof. unfold report. by repeat case_match. Qed.

Lemma check_expiry_status file_path w :
  tool_runs tool →
  (check_expiry now tool file_path w).1 = Ok ()
  ∧ ∃ ls, out (check_expiry now tool file_path w).2 = out w ++ ls
          ∧ omap status_of ls = [file_path].
Proof.
  intros Htool. specialize (Htool file_path (temp_plist file_path) (fs w)).
  rewrite check_expiry_run. simpl.
  destruct (tool file_path (temp_plist file_path) (fs w)) as [[rc err|e] f'];
    simpl in *; [|done].
  case_bool_decide as Hrc; [|split; [done|]; by eexists [_; _]].
  specialize (Htool Hrc). rewrite out_after_decode. split.
  - unfold after_decode, is_dir in *. by destruct (node_at f' _) as [[|]|].
  - eexists [_]. split; [done|]. simpl. by rewrite status_of_report.
Qed.

Lemma for_each_status {A} (g : A → list string) (xs : list A)
    (body : A → M unit) :
  (∀ x, x ∈ xs → ∀ w,
     (body x w).1 = Ok ()
     ∧ ∃ ls, out (body x w).2 = out w ++ ls ∧ omap status_of ls = g x) →
  ∀ w, (for_each xs body w).1 = Ok ()
       ∧ ∃ ls, out (for_each xs body w).2 = out w ++ ls
               ∧ omap status_of ls = flat_map g xs.
Proof.
  induction xs as [|x xs IH]; intros Hbody w.
  - split; [done|]. exists []. by rewrite app_nil_r.
  - simpl. unfold mbind, M_bind.
    destruct (Hbody x (list_elem_of_here _ _) w) as (Hok & ls1 & Hout1 & Hs1).
    destruct (body x w) as [[[]|e] w1]; [|done]. simpl in *.
    destruct (IH (λ y Hy, Hbody y (list_elem_of_further _ _ _ Hy)) w1)
      as (Hok2 & ls2 & Hout2 & Hs2).
    split; [done|]. exists (ls1 ++ ls2).
    by rewrite Hout2, Hout1, <-app_assoc, omap_app, Hs1, Hs2.
Qed.

Lemma extract_out ipa_path w :
  ∃ ds, out (extract_mobileprovision_from_ipa ipa_path w).2 = out w ++ ds
        ∧ omap status_of ds = [].
Proof.
  rewrite extract_run, ZipFile_run.
  destruct (node_at (fs w) (resolve ipa_path)) as [[[b|v|ms]|]|];
    try (by eexists [_]).
  pose proof (silent_extract_members ms (namelist ms) [] w) as Hout.
  destruct (extract_members ms (namelist ms) [] w) as [[[|p ps]|e] w1];
    simpl in *; [by eexists [_]| |by eexists [_]].
  exists []. by rewrite app_nil_r.
Qed.

Lemma flat_map_singleton {A} (xs : list A) : flat_map (λ x, [x]) xs = xs.
Proof. induction xs; simpl; by f_equal. Qed.

(** X11: with a tool that runs, processing an archive checks every path
    the extraction returned, once and in order: after the extraction's
    own diagnostics, the status lines printed are about exactly those
    paths. *)
Theorem process_file_checks_extracted root filename w :
  tool_runs tool →
  endswith filename ".ipa" = true →
  ∃ paths,
    (extract_mobileprovision_from_ipa (os_path_join root filename) w).1
    = Ok paths
    ∧ (process_file now tool root filename w).1 = Ok ()
    ∧ ∃ ls, out (process_file now tool root filename w).2 = out w ++ ls
            ∧ omap status_of ls = paths.
Proof.
  intros Htool Hipa. rewrite process_file_ipa by done. unfold mbind, M_bind.
  destruct (extract_out (os_path_join root filename) w) as (ds & Hds & Hnone).
  destruct (extract_returns (os_path_join root filename) w)
    as (ps & w1 & Hrun).
  rewrite Hrun in *. simpl in *. exists ps. split; [done|].
  destruct (for_each_status (λ p, [p]) ps (check_expiry now tool)
              (λ p _ w', check_expiry_status p w' Htool) w1)
    as (Hok & ls & Hls & Hs).
  split; [done|]. exists (ds ++ ls).
  by rewrite Hls, Hds, <-app_assoc, omap_app, Hnone, Hs, flat_map_singleton.
Qed.

(** X12: with a tool that runs, a walk without archives gets one status
    line per standalone profile, in the order of the walk. *)
Theorem process_directory_reports_in_order walk w :
  tool_runs tool →
  (∀ entry filename,
     entry ∈ walk → filename ∈ entry.2 → endswith filename ".ipa" = false) →
  (process_directory now tool walk w).1 = Ok ()
  ∧ ∃ ls, out (process_directory now tool walk w).2 = out w ++ ls
          ∧ omap status_of ls = profile_paths walk.
Proof.
  intros Htool Hnone. unfold process_directory, profile_paths.
  apply for_each_status. intros [[root dirs] files] Hentry w1. simpl.
  assert (∀ n, n ∈ files → endswith n ".ipa" = false) as Hfiles
    by (intros n; by apply (Hnone (root, dirs, files))).
  clear Hnone Hentry.
  assert (flat_map (λ n, if endswith n ".mobileprovision"
                         then [os_path_join root n] else []) files
          = os_path_join root
              <$> filter (λ n, endswith n ".mobileprovision" = true) files)
    as <-.
  { clear Hfiles. induction files as [|n files IH]; [done|]. simpl.
    destruct (endswith n ".mobileprovision") eqn:Hn.
    - rewrite filter_cons_True by done. simpl. by f_equal.
    - rewrite filter_cons_False by (by rewrite Hn). done. }
  apply for_each_status. intros n Hn w2. unfold process_file.
  destruct (endswith n ".mobileprovision"); [by apply check_expiry_status|].
  rewrite (Hfiles n Hn). split; [done|]. exists []. by rewrite app_nil_r.
Qed.

(** *** The scratch directory around the run *)

Lemma for_each_nothing {A} (xs : list A) (body : A → M unit) w :
  (∀ x, x ∈ xs → ∀ w, body x w = (Ok (), w)) → for_each xs body w = (Ok (), w).
Proof.
  induction xs as [|x xs IH]; intros Hbody; [done|].
  simpl. unfold mbind, M_bind. rewrite Hbody by left.
  apply IH. intros y Hy. apply Hbody. by right.
Qed.

Lemma process_directory_nothing walk w :
  (∀ entry filename,
     entry ∈ walk → filename ∈ entry.2 → relevant filename = false) →
  process_directory now tool walk w = (Ok (), w).
Proof.
  intros Hnone. unfold process_directory.
  apply for_each_nothing. intros entry Hentry w1.
  apply for_each_nothing. intros filename Hfile w2.
  apply process_file_irrelevant. by eapply Hnone.
Qed.

(** What [shutil.rmtree] leaves. *)
Lemma node_at_rmtree (T : loc) (f : gmap loc node) k :
  T ≠ [] →
  node_at (filter (λ kn : loc * node, below T kn.1 = false) f) k
  = if below T k then None else node_at f k.
Proof.
  intros HT. destruct k as [|c k].
  - unfold below. rewrite bool_decide_false; [done|].
    intros [l Hl]. by destruct T.
  - unfold node_at. destruct (below T (c :: k)) eqn:Hb.
    + apply map_lookup_filter_None. right. intros n _. simpl. by rewrite Hb.
    + rewrite map_lookup_filter.
      destruct (_ !! _) as [n|]; simpl; [|done].
      by rewrite option_guard_True.
Qed.

(** X13: when a regular file lies where the scratch directory should be,
    [main] stops with the exception of [shutil.rmtree] before anything is
    processed, and changes nothing. *)
Theorem main_scratch_is_file walk w c :
  node_at (fs w) (resolve TEMP_DIR) = Some (File c) →
  main now tool walk w = (Raise (NotADirectoryError TEMP_DIR), w).
Proof.
  intros Hfile. unfold main, os_path_exists, shutil_rmtree, exists_at.
  unfold_monad. simpl. rewrite Hfile. simpl. by rewrite Hfile.
Qed.

(** X14: when the walk has no file to dispatch on and no regular file
    lies at the scratch path, [main] returns and prints nothing, and its
    whole effect is that nothing is left at or below [TEMP_DIR], whatever
    was there before the run; every other location is untouched. *)
Theorem main_nothing_to_check walk w :
  (∀ c, node_at (fs w) (resolve TEMP_DIR) ≠ Some (File c)) →
  (∀ entry filename,
     entry ∈ walk → filename ∈ entry.2 → relevant filename = false) →
  (main now tool walk w).1 = Ok ()
  ∧ out (main now tool walk w).2 = out w
  ∧ ∀ k, node_at (fs (main now tool walk w).2) k
         = if below (resolve TEMP_DIR) k then None else node_at (fs w) k.
Proof.
  intros Hfile Hnone.
  set (T := resolve TEMP_DIR) in *.
  assert (T ≠ []) as HT by done.
  assert (below T T = true) as Hself by (by apply bool_decide_true).
  assert (∃ f1,
    ((present ← os_path_exists TEMP_DIR;
      (if present : bool then shutil_rmtree TEMP_DIR else mret ());;
      os_makedirs TEMP_DIR) w
     = (Ok (), World (<[T := Dir]> f1) (out w)))
    ∧ ∀ k, below T k = false → node_at f1 k = node_at (fs w) k)
    as (f1 & Hpro & Hf1).
  { unfold os_path_exists, shutil_rmtree, os_makedirs, makedirs_at, exists_at.
    unfold_monad. simpl. fold T.
    destruct (node_at (fs w) T) as [[c|]|] eqn:HwT; [by destruct (Hfile c)|..].
    - exists (filter (λ kn : loc * node, below T kn.1 = false) (fs w)).
      simpl. rewrite ?HwT. simpl. change ["temp_extracted"] with T.
      rewrite !(node_at_rmtree T (fs w) T HT), Hself. simpl.
      split; [done|]. intros k Hk. by rewrite node_at_rmtree, Hk.
    - exists (fs w). simpl. rewrite ?HwT. simpl.
      change ["temp_extracted"] with T. by rewrite !HwT. }
  unfold main. unfold mbind, M_bind in Hpro |- *.
  destruct (os_path_exists TEMP_DIR w) as [[b|e] w1]; [|done].
  destruct ((if b then shutil_rmtree TEMP_DIR else mret ()) w1)
    as [[[]|e] w2]; [|done].
  rewrite Hpro, process_directory_nothing by done.
  unfold os_path_exists, shutil_rmtree, exists_at. unfold_monad. simpl.
  fold T. rewrite !node_at_insert_eq by done. simpl.
  rewrite !node_at_insert_eq by done. simpl.
  split; [done|]. split; [done|]. intros k.
  rewrite node_at_rmtree by done.
  destruct (below T k) eqn:Hk; [done|].
  rewrite node_at_insert_ne by (intros <-; congruence). by apply Hf1.
Qed.

End WalkerOutcome.

(** ** Member names that lead out of the loop or of the scratch directory *)

Section ExtractionEdges.

Lemma node_at_delete_eq (f : gmap loc node) k :
  k ≠ [] → node_at (delete k f) k = None.
Proof. destruct k; [done|]. intros _. apply lookup_delete_eq. Qed.

Lemma extract_members_app z l1 l2 : ∀ acc w,
  extract_members z (l1 ++ l2) acc w =
  match extract_members z l1 acc w with
  | (Ok acc', w1) => extract_members z l2 acc' w1
  | (Raise e, w1) => (Raise e, w1)
  end.
Proof.
  induction l1 as [|file l1 IH]; intros acc w; [done|].
  rewrite <-app_comm_cons, !extract_members_cons.
  destruct (endswith file "embedded.mobileprovision"); [|apply IH].
  destruct (extract_one z file (length acc) w) as [[[]|e] w1]; [apply IH|done].
Qed.

Lemma extract_members_app_ok z l1 l2 acc w acc' :
  (extract_members z l1 acc w).1 = Ok acc' →
  extract_members z (l1 ++ l2) acc w
  = extract_members z l2 acc' (extract_members z l1 acc w).2.
Proof.
  intros Hok. rewrite extract_members_app.
  destruct (extract_members z l1 acc w) as [r w1]. simpl in *. by subst r.
Qed.

(** A step of the loop that raises has changed only locations on the way
    to its extraction target. *)
Lemma extract_one_raise_frame z file n w e k :
  (extract_one z file n w).1 = Raise e →
  ¬ k `prefix_of` target_loc file →
  node_at (fs (extract_one z file n w).2) k = node_at (fs w) k.
Proof.
  intros Hraise Hk. unfold extract_one, mbind, M_bind in *.
  pose proof (zip_extract_frame z file TEMP_DIR w k Hk) as Hzip.
  destruct (zip_extract z file TEMP_DIR w) as [[[]|e'] w1]; [|done].
  by rewrite (shutil_move_raise _ _ _ _ Hraise).
Qed.

(** X15: when the extraction of a matching member raises after the
    members before it were extracted, [extract_mobileprovision_from_ipa]
    returns the empty list with one diagnostic, and every profile
    extracted before is still at its disambiguated path, where nothing
    will check it. *)
Theorem interrupted_keeps_earlier ipa_path w ms pre file post ps e :
  node_at (fs w) (resolve ipa_path) = Some (File (ZipArchive ms)) →
  namelist ms = pre ++ file :: post →
  endswith file "embedded.mobileprovision" = true →
  Forall clean (matching pre) →
  no_dir_at_paths (fs w) (matching pre) →
  no_clash (matching pre) →
  Forall (λ p, ¬ resolve p `prefix_of` target_loc file)
    (expected_paths 0 (matching pre)) →
  (extract_members ms pre [] w).1 = Ok ps →
  (extract_one ms file (length ps) (extract_members ms pre [] w).2).1
  = Raise e →
  (extract_mobileprovision_from_ipa ipa_path w).1 = Ok []
  ∧ out (extract_mobileprovision_from_ipa ipa_path w).2
    = out w ++ [ErrorExtracting ipa_path e]
  ∧ ∀ i f, matching pre !! i = Some f →
      ∃ c, getinfo ms f = Some (Some c)
           ∧ node_at (fs (extract_mobileprovision_from_ipa ipa_path w).2)
               (resolve (extract_path i f)) = Some (File c).
Proof.
  intros Hzip Hnames Hfile Hclean Hdir Hclash Hoff Hpre Hstep.
  destruct (extract_members_contents ms pre [] 0%nat w ps) as [Hin _];
    try done.
  { intros i f Hf. eapply (proj1 (Forall_lookup _ _) Hdir).
    by rewrite expected_paths_lookup, Hf. }
  { intros i j fi fj Hi Hj.
    pose proof (proj1 (Forall_lookup _ _) Hclash i fi Hi) as Hfi.
    eapply (proj1 (Forall_lookup _ _) Hfi).
    by rewrite expected_paths_lookup, Hj. }
  rewrite extract_run, ZipFile_run, Hzip, Hnames.
  rewrite (extract_members_app_ok _ _ _ _ _ _ Hpre).
  rewrite extract_members_cons, Hfile.
  set (w1 := (extract_members ms pre [] w).2) in *.
  assert (∀ p, p ∈ expected_paths 0 (matching pre) →
            node_at (fs (extract_one ms file (length ps) w1).2) (resolve p)
            = node_at (fs w1) (resolve p)) as Hframe.
  { intros p Hp. apply (extract_one_raise_frame _ _ _ _ e); [done|].
    by apply (proj1 (Forall_forall _ _) Hoff). }
  destruct (extract_one ms file (length ps) w1) as [r w2].
  simpl in *. subst r. simpl.
  split; [done|]. split; [done|]. intros i f Hf.
  destruct (Hin i f Hf) as (c & Hinfo & Hnode). exists c. split; [done|].
  rewrite Hframe; [done|].
  apply (list_elem_of_lookup_2 _ i). by rewrite expected_paths_lookup, Hf.
Qed.

(** X16: a matching member named with a [..] component is extracted
    inside the scratch directory, but the move that follows takes its
    source path literally: the file of that name beside the scratch
    directory is what ends up at the returned path, and it is gone from
    where it was. *)
Theorem unclean_member_takes_outside_file ipa_path w c c' :
  let T := resolve TEMP_DIR in
  node_at (fs w) (resolve ipa_path)
  = Some (File (ZipArchive [("../embedded.mobileprovision", Some c)])) →
  node_at (fs w) T = Some Dir →
  node_at (fs w) ["embedded.mobileprovision"] = Some (File c') →
  is_dir (fs w) (T ++ ["embedded.mobileprovision"]) = false →
  is_dir (fs w) (T ++ ["embedded.mobileprovision_0"]) = false →
  let r := extract_mobileprovision_from_ipa ipa_path w in
  r.1 = Ok ["temp_extracted/embedded.mobileprovision_0"]
  ∧ node_at (fs r.2) ["embedded.mobileprovision"] = None
  ∧ node_at (fs r.2) (T ++ ["embedded.mobileprovision_0"]) = Some (File c')
  ∧ node_at (fs r.2) (T ++ ["embedded.mobileprovision"]) = Some (File c).
Proof.
  intros T Hzip HT Hmine Hd1 Hd0 r. subst r T.
  change (resolve TEMP_DIR) with ["temp_extracted"] in *. simpl in Hd1, Hd0.
  set (file := "../embedded.mobileprovision").
  set (z := [(file, Some c)]) in *.
  set (src := ["embedded.mobileprovision"] : loc) in *.
  set (target := ["temp_extracted"; "embedded.mobileprovision"] : loc) in *.
  set (dst := ["temp_extracted"; "embedded.mobileprovision_0"] : loc) in *.
  assert (extract_one z file 0 w
          = (Ok (), World (<[dst := File c']>
                             (delete src (<[target := File c]> (fs w))))
                      (out w))) as Hone.
  { unfold extract_one, zip_extract.
    assert (getinfo z file = Some (Some c)) as -> by (vm_compute; reflexivity).
    assert (arcname file = ["embedded.mobileprovision"]) as ->
      by (vm_compute; reflexivity).
    change (resolve TEMP_DIR ++ ["embedded.mobileprovision"]) with target.
    change (parent target) with ["temp_extracted"].
    rewrite bool_decide_false by done.
    unfold write_file, shutil_move, rename_at. unfold_monad.
    change (parent target) with ["temp_extracted"].
    assert (resolve (os_path_join TEMP_DIR file) = src) as ->
      by (vm_compute; reflexivity).
    assert (resolve (extract_path 0 file) = dst) as ->
      by (vm_compute; reflexivity).
    change (parent dst) with ["temp_extracted"].
    unfold exists_at. rewrite HT.
    assert (is_dir (fs w) ["temp_extracted"] = true) as HTd
      by (unfold is_dir; by rewrite HT).
    change (is_dir (fs w) target) with (is_dir (fs w) ("temp_extracted" :: src)).
    rewrite HTd, Hd1. simpl.
    assert (is_dir (<[target := File c]> (fs w)) dst = false) as Hf1d
      by (unfold is_dir; rewrite node_at_insert_ne by done; exact Hd0).
    assert (node_at (<[target := File c]> (fs w)) src = Some (File c'))
      as Hf1s by (by rewrite node_at_insert_ne).
    assert (is_dir (<[target := File c]> (fs w)) ["temp_extracted"] = true)
      as Hf1T
      by (unfold is_dir; rewrite node_at_insert_ne by done; by rewrite HT).
    assert (walk_error (<[target := File c]> (fs w))
              (os_path_join TEMP_DIR file) = None) as Hwalk.
    { unfold walk_error.
      replace (split_sep (os_path_join TEMP_DIR file))
        with ["temp_extracted"; ".."; "embedded.mobileprovision"]
        by (vm_compute; reflexivity).
      replace (startswith (os_path_join TEMP_DIR file) "/") with false
        by (vm_compute; reflexivity).
      simpl.
      change (reverse (norm_step [] "temp_extracted"))
        with (["temp_extracted"] : loc).
      unfold is_dir in Hf1T.
      by destruct (node_at (<[target := File c]> (fs w)) ["temp_extracted"])
        as [[|]|]. }
    rewrite Hwalk, Hf1d. simpl. rewrite Hf1s, Hf1T, Hf1d. done. }
  rewrite extract_run, ZipFile_run, Hzip.
  change (extract_members _ _ [] w) with (extract_members z [file] [] w).
  rewrite extract_members_cons.
  assert (endswith file "embedded.mobileprovision" = true) as ->
    by (vm_compute; reflexivity).
  change (length []) with 0%nat. rewrite Hone. simpl.
  split; [vm_compute; reflexivity|].
  split; [|split].
  - rewrite node_at_insert_ne by done. by apply node_at_delete_eq.
  - by apply node_at_insert_eq.
  - rewrite node_at_insert_ne, node_at_delete_ne by done.
    by apply node_at_insert_eq.
Qed.

End ExtractionEdges.

(** ** An extraction interrupted by an exception *)

Section Interrupted.

Variable now : datetime.
Variable tool : string → string → gmap loc node → run_outcome * gmap loc node.

Lemma matching_app l1 l2 : matching (l1 ++ l2) = matching l1 ++ matching l2.
Proof. apply filter_app. Qed.

Lemma expected_paths_app n l1 l2 :
  expected_paths n (l1 ++ l2)
  = expected_paths n l1 ++ expected_paths (n + length l1) l2.
Proof.
  revert n. induction l1 as [|f l1 IH]; intros n; simpl.
  - by rewrite Nat.add_0_r.
  - by rewrite IH, Nat.add_succ_r.
Qed.

(** A loop that raises does so at a first member: the ones before it were
    extracted, and its own step raises. *)
Lemma extract_members_raise z names : ∀ acc w e,
  (extract_members z names acc w).1 = Raise e →
  ∃ pre file post ps,
    names = pre ++ file :: post
    ∧ endswith file "embedded.mobileprovision" = true
    ∧ (extract_members z pre acc w).1 = Ok ps
    ∧ (extract_one z file (length ps) (extract_members z pre acc w).2).1
      = Raise e.
Proof.
  induction names as [|file names IH]; intros acc w e; [done|].
  rewrite extract_members_cons.
  destruct (endswith file "embedded.mobileprovision") eqn:Hfile.
  - destruct (extract_one z file (length acc) w) as [[[]|e'] w1] eqn:Hone.
    + intros (pre & f & post & ps & -> & Hf & Hpre & Hstep)%IH.
      exists (file :: pre), f, post, ps.
      rewrite extract_members_cons, Hfile, Hone. done.
    + simpl. intros [= ->]. exists [], file, names, acc. simpl.
      by rewrite Hone.
  - intros (pre & f & post & ps & -> & Hf & Hpre & Hstep)%IH.
    exists (file :: pre), f, post, ps.
    rewrite extract_members_cons, Hfile. done.
Qed.

(** The members extracted before the one that raises are still at their
    disambiguated paths when the loop stops. *)
Lemma interrupted_loop z pre file post ps e w :
  endswith file "embedded.mobileprovision" = true →
  Forall clean (matching pre) →
  no_dir_at_paths (fs w) (matching pre) →
  no_clash (matching pre) →
  Forall (λ p, ¬ resolve p `prefix_of` target_loc file)
    (expected_paths 0 (matching pre)) →
  (extract_members z pre [] w).1 = Ok ps →
  (extract_one z file (length ps) (extract_members z pre [] w).2).1 = Raise e →
  ∀ i f, matching pre !! i = Some f →
    ∃ c, getinfo z f = Some (Some c)
         ∧ node_at (fs (extract_members z (pre ++ file :: post) [] w).2)
             (resolve (extract_path i f)) = Some (File c).
Proof.
  intros Hfile Hclean Hdir Hclash Hoff Hpre Hstep i f Hf.
  destruct (extract_members_contents z pre [] 0%nat w ps) as [Hin _];
    try done.
  { intros j g Hg. eapply (proj1 (Forall_lookup _ _) Hdir).
    by rewrite expected_paths_lookup, Hg. }
  { intros j k fj fk Hj Hk.
    pose proof (proj1 (Forall_lookup _ _) Hclash j fj Hj) as Hfj.
    eapply (proj1 (Forall_lookup _ _) Hfj).
    by rewrite expected_paths_lookup, Hk. }
  destruct (Hin i f Hf) as (c & Hinfo & Hnode). exists c. split; [done|].
  rewrite (extract_members_app_ok _ _ _ _ _ _ Hpre).
  rewrite extract_members_cons, Hfile.
  set (w1 := (extract_members z pre [] w).2) in *.
  pose proof (extract_one_raise_frame z file (length ps) w1 e
                (resolve (extract_path i f)) Hstep) as Hframe.
  destruct (extract_one z file (length ps) w1) as [r w2].
  simpl in *. subst r. simpl. rewrite Hframe; [done|].
  apply (proj1 (Forall_forall _ _) Hoff).
  apply (list_elem_of_lookup_2 _ i). by rewrite expected_paths_lookup, Hf.
Qed.

(** C10 (amended): when the loop over the archive's members raises an
    exception, [extract_mobileprovision_from_ipa] prints one diagnostic
    and returns the empty list, so [process_file] prints nothing else and
    checks no profile of that archive.  The loop has stopped at a first
    member whose step raised, after extracting the members before it; when
    the matching names are clean, no disambiguated path is a directory
    beforehand and none lies on the way to an extraction target, each of
    these members is, when the call returns, a regular file with its data
    at its disambiguated path in the scratch directory. *)
Theorem extract_interrupted ipa_path w ms e :
  node_at (fs w) (resolve ipa_path) = Some (File (ZipArchive ms)) →
  (extract_members ms (namelist ms) [] w).1 = Raise e →
  let w1 := (extract_members ms (namelist ms) [] w).2 in
  let files := matching (namelist ms) in
  extract_mobileprovision_from_ipa ipa_path w
  = (Ok [], World (fs w1) (out w ++ [ErrorExtracting ipa_path e]))
  ∧ (∀ root filename,
       os_path_join root filename = ipa_path →
       endswith filename ".ipa" = true →
       process_file now tool root filename w
       = (Ok (), World (fs w1) (out w ++ [ErrorExtracting ipa_path e])))
  ∧ ∃ pre file post,
      namelist ms = pre ++ file :: post
      ∧ endswith file "embedded.mobileprovision" = true
      ∧ (extract_members ms pre [] w).1
        = Ok (expected_paths 0 (matching pre))
      ∧ (extract_one ms file (length (matching pre))
           (extract_members ms pre [] w).2).1 = Raise e
      ∧ (Forall clean files → no_dir_at_paths (fs w) files →
         no_clash files →
         ∀ i f, matching pre !! i = Some f →
           ∃ c, getinfo ms f = Some (Some c)
                ∧ node_at (fs w1) (resolve (extract_path i f))
                  = Some (File c)).
Proof.
  intros Hzip Hloop w1 files.
  assert (extract_mobileprovision_from_ipa ipa_path w
          = (Ok [], World (fs w1) (out w ++ [ErrorExtracting ipa_path e])))
    as Hrun.
  { rewrite extract_run, ZipFile_run, Hzip. subst w1.
    destruct (extract_members ms (namelist ms) [] w) as [r w1].
    simpl in *. by subst r. }
  split; [done|]. split.
  { intros root filename <- Hipa.
    rewrite process_file_ipa by done. unfold mbind, M_bind. by rewrite Hrun. }
  destruct (extract_members_raise _ _ _ _ _ Hloop)
    as (pre & file & post & ps & Hnames & Hfile & Hpre & Hstep).
  pose proof (extract_members_paths _ _ _ _ _ Hpre) as Hps. simpl in Hps.
  exists pre, file, post. split; [done|]. split; [done|].
  split; [by rewrite Hpre, Hps|].
  split; [by rewrite <-(length_expected_paths 0 (matching pre)), <-Hps|].
  subst files w1. rewrite Hnames, matching_app, matching_cons_true by done.
  intros [Hclean _]%Forall_app Hdir Hclash.
  unfold no_dir_at_paths in Hdir. rewrite expected_paths_app in Hdir.
  apply Forall_app in Hdir as [Hdir _].
  unfold no_clash in Hclash. apply Forall_app in Hclash as [Hclash Hrest].
  apply Forall_cons in Hrest as [Hoff _].
  rewrite expected_paths_app in Hoff. apply Forall_app in Hoff as [Hoff _].
  apply (interrupted_loop ms pre file post ps e w); try done.
  unfold no_clash. eapply Forall_impl; [exact Hclash|].
  intros f Hf. simpl in Hf. rewrite expected_paths_app in Hf.
  by apply Forall_app in Hf as [? _].
Qed.

End Interrupted.

(** ** Failures end in printed lines *)

Section Failures.

Variable now : datetime.
Variable tool : string → string → gmap loc node → run_outcome * gmap loc node.

(** The line of the [try] block, by what the decoded document holds. *)
Lemma report_missing_field file_path d :
  d !! "ExpirationDate" = None →
  report now file_path (Some (File (PlistDoc (PDict d))))
  = NoExpirationDate file_path.
Proof. intros Hd. unfold report. by rewrite Hd. Qed.

Lemma report_not_a_date file_path d v :
  d !! "ExpirationDate" = Some v →
  truthy (Some v) = true →
  (∀ t, v ≠ PDate t) →
  ∃ e, report now file_path (Some (File (PlistDoc (PDict d))))
       = ErrorProcessing file_path e.
Proof.
  intros Hd Hv Hdate. unfold report. rewrite Hd, Hv. simpl.
  destruct v; eauto. by destruct (Hdate t).
Qed.

Lemma report_unreadable file_path n :
  (∀ d, n ≠ Some (File (PlistDoc (PDict d)))) →
  ∃ e, report now file_path n = ErrorProcessing file_path e.
Proof.
  intros Hn. unfold report.
  destruct n as [[[b|[d|l|s|z|b|bs|t]|ms]|]|]; eauto. by destruct (Hn d).
Qed.

(** The lines of an extraction are diagnostics, and there is one when no
    path is returned. *)
Lemma extract_lines ipa_path w :
  ∃ paths ds,
    (extract_mobileprovision_from_ipa ipa_path w).1 = Ok paths
    ∧ out (extract_mobileprovision_from_ipa ipa_path w).2 = out w ++ ds
    ∧ omap status_of ds = []
    ∧ (paths = [] → ds ≠ []).
Proof.
  rewrite extract_run, ZipFile_run.
  destruct (node_at (fs w) (resolve ipa_path)) as [[[b|v|ms]|]|];
    try (by eexists [], [_]).
  pose proof (silent_extract_members ms (namelist ms) [] w) as Hout.
  destruct (extract_members ms (namelist ms) [] w) as [[[|p ps]|e] w1];
    simpl in *; [by eexists [], [_]| |by eexists [], [_]].
  exists (p :: ps), []. by rewrite app_nil_r.
Qed.

(** C2 (amended): provided the tool can be started and does not leave a
    directory at its output path when it reports success, every failure
    while a file is processed ends in printed lines and no exception
    leaves the processing of the file.  [check_expiry] returns, and a
    non-zero exit of the tool gives the two lines of a decode failure, a
    missing expiration field the line saying so, a decoded document that
    cannot be read or interpreted one [Error processing] line, each about
    the file.  [extract_mobileprovision_from_ipa] returns, and an
    exception while opening the archive or in the loop over its members
    gives one [Error extracting] line and the empty list.  [process_file]
    returns and prints at least one line for a file it dispatches on, and
    [process_directory] returns. *)
Theorem no_exception_escapes :
  tool_runs tool →
  (∀ file_path w,
     let r := tool file_path (temp_plist file_path) (fs w) in
     let k := resolve (temp_plist file_path) in
     let c := check_expiry now tool file_path w in
     c.1 = Ok ()
     ∧ (∀ rc stderr, r.1 = Completed rc stderr → rc ≠ 0 →
          out c.2 = out w ++ [ErrorDecoding file_path stderr;
                              FailedToDecode file_path])
     ∧ (∀ stderr, r.1 = Completed 0 stderr →
          ∃ l, out c.2 = out w ++ [l]
               ∧ status_line file_path l
               ∧ (∀ d, node_at r.2 k = Some (File (PlistDoc (PDict d))) →
                       d !! "ExpirationDate" = None →
                       l = NoExpirationDate file_path)
               ∧ ((∀ d, node_at r.2 k ≠ Some (File (PlistDoc (PDict d)))) →
                  ∃ e, l = ErrorProcessing file_path e)
               ∧ (∀ d v, node_at r.2 k = Some (File (PlistDoc (PDict d))) →
                         d !! "ExpirationDate" = Some v →
                         truthy (Some v) = true →
                         (∀ t, v ≠ PDate t) →
                         ∃ e, l = ErrorProcessing file_path e)))
  ∧ (∀ ipa_path w,
       let x := extract_mobileprovision_from_ipa ipa_path w in
       (∃ paths, x.1 = Ok paths)
       ∧ (∀ e, (ZipFile ipa_path w).1 = Raise e →
            x.1 = Ok [] ∧ out x.2 = out w ++ [ErrorExtracting ipa_path e])
       ∧ (∀ ms e, (ZipFile ipa_path w).1 = Ok ms →
            (extract_members ms (namelist ms) [] w).1 = Raise e →
            x.1 = Ok [] ∧ out x.2 = out w ++ [ErrorExtracting ipa_path e]))
  ∧ (∀ root filename w,
       let file_path := os_path_join root filename in
       (process_file now tool root filename w).1 = Ok ()
       ∧ ∃ ls, out (process_file now tool root filename w).2 = out w ++ ls
               ∧ (relevant filename = true → ls ≠ [])
               ∧ (endswith filename ".mobileprovision" = true →
                  omap status_of ls = [file_path])
               ∧ (endswith filename ".mobileprovision" = false →
                  endswith filename ".ipa" = true →
                  ∃ paths,
                    (extract_mobileprovision_from_ipa file_path w).1
                    = Ok paths
                    ∧ omap status_of ls = paths))
  ∧ (∀ walk w, returns (process_directory now tool walk) w).
Proof.
  intros Htool. split; [|split; [|split]].
  - intros file_path w r k c. subst r k c.
    pose proof (Htool file_path (temp_plist file_path) (fs w)) as Hrun.
    rewrite check_expiry_run. simpl.
    destruct (tool file_path (temp_plist file_path) (fs w))
      as [[rc err|e] f']; simpl in *; [|done].
    case_bool_decide as Hrc.
    + specialize (Hrun Hrc). subst rc.
      split; [|split; [by intros rc stderr [= <- <-]|]].
      { unfold after_decode, is_dir in *.
        by destruct (node_at f' _) as [[|]|]. }
      intros stderr _. rewrite out_after_decode.
      eexists. split; [done|]. split; [|split; [|split]].
      * unfold report. by repeat case_match.
      * intros d -> Hd. by apply report_missing_field.
      * apply report_unreadable.
      * intros d v -> Hd Hv Hdate. by eapply report_not_a_date.
    + split; [done|]. split; [by intros rc' stderr [= <- <-]|].
      by intros stderr [= ? _].
  - intros ipa_path w x. subst x. split; [|split].
    + destruct (extract_returns ipa_path w) as (ps & w1 & ->). by exists ps.
    + intros e. rewrite extract_run.
      destruct (ZipFile ipa_path w) as [[ms|e'] w1]; [done|].
      by intros [= ->].
    + intros ms e. rewrite extract_run.
      destruct (ZipFile ipa_path w) as [[ms'|e'] w0]; [|done].
      intros [= ->].
      destruct (extract_members ms (namelist ms) [] w) as [[ps|e'] w1];
        [done|]. by intros [= ->].
  - intros root filename w file_path. subst file_path.
    unfold relevant, process_file.
    destruct (endswith filename ".mobileprovision").
    { destruct (check_expiry_status now tool (os_path_join root filename) w
                  Htool) as (Hok & ls & Hls & Hs).
      split; [done|]. exists ls. split; [done|].
      split; [by intros _ ->|]. by split. }
    destruct (endswith filename ".ipa"); simpl.
    2: { split; [done|]. exists []. by rewrite app_nil_r. }
    unfold mbind, M_bind.
    destruct (extract_lines (os_path_join root filename) w)
      as (ps & ds & Hps & Hds & Hquiet & Hnone).
    destruct (extract_mobileprovision_from_ipa (os_path_join root filename) w)
      as [r w1]. simpl in *. subst r.
    destruct (for_each_status (λ p, [p]) ps (check_expiry now tool)
                (λ p _ w', check_expiry_status now tool p w' Htool) w1)
      as (Hok & ls & Hls & Hs).
    rewrite flat_map_singleton in Hs.
    split; [done|]. exists (ds ++ ls).
    split; [by rewrite Hls, Hds, <-app_assoc|].
    split; [|split; [done|]].
    + intros _ [Hd Hl]%app_eq_nil. destruct ps as [|p ps]; [by apply Hnone|].
      by subst ls.
    + intros _ _. exists ps. split; [done|].
      by rewrite omap_app, Hquiet, Hs.
  - intros walk. unfold process_directory.
    apply for_each_returns. intros entry.
    apply for_each_returns. intros. by apply process_file_returns.
Qed.

End Failures.

(** ** Runs for the further properties *)

Lemma check_expiry_one_status_line_witness :
  ∃ pre l,
    out (check_expiry 100 Samples.rejects "./a.mobileprovision" Samples.w0).2
    = out Samples.w0 ++ pre ++ [l]
    ∧ status_line "./a.mobileprovision" l
    ∧ ((pre = []
        ∧ ∃ stderr,
            (Samples.rejects "./a.mobileprovision"
               (temp_plist "./a.mobileprovision") (fs Samples.w0)).1
            = Completed 0 stderr)
       ∨ (∃ stderr, pre = [ErrorDecoding "./a.mobileprovision" stderr])
         ∧ l = FailedToDecode "./a.mobileprovision").
Proof.
  apply (check_expiry_one_status_line 100 Samples.rejects
           "./a.mobileprovision" Samples.w0).
  exact I.
Defined.

Lemma check_expiry_not_a_date_witness :
  (check_expiry 100 (Samples.decodes_to_value (PString "2030-01-01"))
     "./a.mobileprovision" Samples.w0).1 = Ok ()
  ∧ out (check_expiry 100 (Samples.decodes_to_value (PString "2030-01-01"))
           "./a.mobileprovision" Samples.w0).2
    = out Samples.w0
      ++ [if truthy (Some (PString "2030-01-01"))
          then ErrorProcessing "./a.mobileprovision"
                 (TypeError "'<' not supported")
          else NoExpirationDate "./a.mobileprovision"].
Proof.
  apply (check_expiry_not_a_date 100
           (Samples.decodes_to_value (PString "2030-01-01"))
           "./a.mobileprovision" Samples.w0 ""
           {[ "ExpirationDate" := PString "2030-01-01" ]}
           (PString "2030-01-01")).
  - reflexivity.
  - vm_compute. reflexivity.
  - vm_compute. reflexivity.
  - intros t. discriminate.
Defined.

Lemma check_expiry_unreadable_witness :
  ∃ e,
    (check_expiry 100 Samples.succeeds_without_output
       "./a.mobileprovision" Samples.w0).1 = Ok ()
    ∧ out (check_expiry 100 Samples.succeeds_without_output
             "./a.mobileprovision" Samples.w0).2
      = out Samples.w0 ++ [ErrorProcessing "./a.mobileprovision" e]
    ∧ exists_at (fs (check_expiry 100 Samples.succeeds_without_output
                       "./a.mobileprovision" Samples.w0).2)
        (resolve (temp_plist "./a.mobileprovision")) = false.
Proof.
  apply (check_expiry_unreadable 100 Samples.succeeds_without_output
           "./a.mobileprovision" Samples.w0 "").
  - reflexivity.
  - vm_compute. discriminate.
  - intros d. vm_compute. discriminate.
Defined.

Lemma check_expiry_frame_witness :
  node_at (fs (check_expiry 100 (Samples.decodes_to 50)
                 "./a.mobileprovision" Samples.w0).2) ["a.mobileprovision"]
  = node_at (Samples.decodes_to 50 "./a.mobileprovision"
               (temp_plist "./a.mobileprovision") (fs Samples.w0)).2
      ["a.mobileprovision"].
Proof.
  apply (check_expiry_frame 100 (Samples.decodes_to 50)
           "./a.mobileprovision" Samples.w0 ["a.mobileprovision"]).
  apply (bool_decide_unpack _). vm_compute. exact I.
Defined.

Lemma check_expiry_no_residue_witness :
  (check_expiry 100 (Samples.decodes_to_value (PDate 50))
     "./a.mobileprovision" Samples.w0).1 = Ok ()
  ∧ ∀ k', node_at (fs (check_expiry 100 (Samples.decodes_to_value (PDate 50))
                         "./a.mobileprovision" Samples.w0).2) k'
          = node_at (fs Samples.w0) k'.
Proof.
  apply (check_expiry_no_residue 100 (Samples.decodes_to_value (PDate 50))
           "./a.mobileprovision" Samples.w0 "").
  - reflexivity.
  - vm_compute. reflexivity.
  - vm_compute. reflexivity.
  - intros k' Hk'. unfold Samples.decodes_to_value. simpl.
    apply node_at_insert_ne. intros Heq. apply Hk'. by rewrite Heq.
Defined.

Lemma extract_stays_in_scratch_witness :
  node_at (fs (extract_mobileprovision_from_ipa "./app.ipa"
                 (Samples.w_ipa (ZipArchive Samples.two_profiles))).2)
    ["app.ipa"]
  = node_at (fs (Samples.w_ipa (ZipArchive Samples.two_profiles))) ["app.ipa"].
Proof.
  assert (node_at (fs (Samples.w_ipa (ZipArchive Samples.two_profiles)))
            (resolve "./app.ipa")
          = Some (File (ZipArchive Samples.two_profiles))) as Hzip
    by (vm_compute; reflexivity).
  apply (extract_stays_in_scratch "./app.ipa"
           (Samples.w_ipa (ZipArchive Samples.two_profiles)) ["app.ipa"]).
  - intros ms Hms. rewrite Hzip in Hms. injection Hms as <-.
    apply (bool_decide_unpack _). vm_compute. exact I.
  - apply (bool_decide_unpack _). vm_compute. exact I.
Defined.

Lemma process_file_checks_extracted_witness :
  ∃ paths,
    (extract_mobileprovision_from_ipa (os_path_join "." "app.ipa")
       (Samples.w_ipa (ZipArchive Samples.two_profiles))).1 = Ok paths
    ∧ (process_file 100 (Samples.decodes_to 50) "." "app.ipa"
         (Samples.w_ipa (ZipArchive Samples.two_profiles))).1 = Ok ()
    ∧ ∃ ls,
        out (process_file 100 (Samples.decodes_to 50) "." "app.ipa"
               (Samples.w_ipa (ZipArchive Samples.two_profiles))).2
        = out (Samples.w_ipa (ZipArchive Samples.two_profiles)) ++ ls
        ∧ omap status_of ls = paths.
Proof.
  apply (process_file_checks_extracted 100 (Samples.decodes_to 50)
           "." "app.ipa" (Samples.w_ipa (ZipArchive Samples.two_profiles))).
  - apply decodes_to_runs.
  - vm_compute. reflexivity.
Defined.

Ltac each_listed H :=
  repeat (apply elem_of_cons in H as [->|H]);
  [..|by apply elem_of_nil in H].

Lemma process_directory_reports_in_order_witness :
  (process_directory 100 (Samples.decodes_to 50)
     Samples.walk_profiles Samples.w0).1 = Ok ()
  ∧ ∃ ls,
      out (process_directory 100 (Samples.decodes_to 50)
             Samples.walk_profiles Samples.w0).2
      = out Samples.w0 ++ ls
      ∧ omap status_of ls = profile_paths Samples.walk_profiles.
Proof.
  apply (process_directory_reports_in_order 100 (Samples.decodes_to 50)
           Samples.walk_profiles Samples.w0).
  - apply decodes_to_runs.
  - intros entry filename Hentry Hfile.
    each_listed Hentry; simpl in Hfile; each_listed Hfile;
      vm_compute; reflexivity.
Defined.

Lemma main_scratch_is_file_witness :
  main 100 (Samples.decodes_to 50) Samples.walk_profiles Samples.w_blocked
  = (Raise (NotADirectoryError TEMP_DIR), Samples.w_blocked).
Proof.
  apply (main_scratch_is_file 100 (Samples.decodes_to 50)
           Samples.walk_profiles Samples.w_blocked (Blob "")).
  vm_compute. reflexivity.
Defined.

Lemma main_nothing_to_check_witness :
  (main 100 (Samples.decodes_to 50) Samples.walk_notes Samples.w_notes).1
  = Ok ()
  ∧ out (main 100 (Samples.decodes_to 50) Samples.walk_notes
           Samples.w_notes).2
    = out Samples.w_notes
  ∧ ∀ k, node_at (fs (main 100 (Samples.decodes_to 50) Samples.walk_notes
                        Samples.w_notes).2) k
         = if below (resolve TEMP_DIR) k then None
           else node_at (fs Samples.w_notes) k.
Proof.
  apply (main_nothing_to_check 100 (Samples.decodes_to 50)
           Samples.walk_notes Samples.w_notes).
  - intros c Hc. vm_compute in Hc. discriminate Hc.
  - intros entry filename Hentry Hfile.
    each_listed Hentry; simpl in Hfile; each_listed Hfile;
      vm_compute; reflexivity.
Defined.

Lemma interrupted_keeps_earlier_witness :
  (extract_mobileprovision_from_ipa "./app.ipa"
     (Samples.w_ipa Samples.half_readable)).1 = Ok []
  ∧ out (extract_mobileprovision_from_ipa "./app.ipa"
           (Samples.w_ipa Samples.half_readable)).2
    = out (Samples.w_ipa Samples.half_readable)
      ++ [ErrorExtracting "./app.ipa" (BadZipFile "cannot read member")]
  ∧ ∀ i f,
      matching ["Payload/A.app/embedded.mobileprovision"] !! i = Some f →
      ∃ c, getinfo Samples.half_readable_members f = Some (Some c)
           ∧ node_at (fs (extract_mobileprovision_from_ipa "./app.ipa"
                            (Samples.w_ipa Samples.half_readable)).2)
               (resolve (extract_path i f)) = Some (File c).
Proof.
  apply (interrupted_keeps_earlier "./app.ipa"
           (Samples.w_ipa Samples.half_readable)
           Samples.half_readable_members
           ["Payload/A.app/embedded.mobileprovision"]
           "Payload/A.app/PlugIns/B.appex/embedded.mobileprovision" []
           ["temp_extracted/embedded.mobileprovision_0"]
           (BadZipFile "cannot read member")).
  - vm_compute. reflexivity.
  - reflexivity.
  - vm_compute. reflexivity.
  - apply (bool_decide_unpack _). vm_compute. exact I.
  - apply (bool_decide_unpack _). vm_compute. exact I.
  - apply (bool_decide_unpack _). vm_compute. exact I.
  - apply (bool_decide_unpack _). vm_compute. exact I.
  - vm_compute. reflexivity.
  - vm_compute. reflexivity.
Defined.

Lemma unclean_member_takes_outside_file_witness :
  (extract_mobileprovision_from_ipa "./app.ipa" Samples.w_beside).1
  = Ok ["temp_extracted/embedded.mobileprovision_0"]
  ∧ node_at (fs (extract_mobileprovision_from_ipa "./app.ipa"
                   Samples.w_beside).2) ["embedded.mobileprovision"] = None
  ∧ node_at (fs (extract_mobileprovision_from_ipa "./app.ipa"
                   Samples.w_beside).2)
      (resolve TEMP_DIR ++ ["embedded.mobileprovision_0"])
    = Some (File (Blob "mine"))
  ∧ node_at (fs (extract_mobileprovision_from_ipa "./app.ipa"
                   Samples.w_beside).2)
      (resolve TEMP_DIR ++ ["embedded.mobileprovision"])
    = Some (File (Blob "theirs")).
Proof.
  apply (unclean_member_takes_outside_file "./app.ipa" Samples.w_beside
           (Blob "theirs") (Blob "mine")); vm_compute; reflexivity.
Defined.

(** ** Runs of an interrupted extraction *)

(** C10, as stated, fails: the profile that the interrupted extraction of
    [a.ipa] left in the scratch directory does not stay there until the
    process exits.  The extraction of [b.ipa], next in the walk, is given
    the same scratch path and replaces it: when [process_directory]
    returns, the path holds the profile of [b.ipa] and the profile of
    [a.ipa] is nowhere. *)
Lemma leftover_replaced_by_later_archive :
  let a := process_file 100 (Samples.decodes_to 50) "." "a.ipa"
             Samples.w_leftover in
  let r := process_directory 100 (Samples.decodes_to 50)
             [(".", ["temp_extracted"], ["a.ipa"; "b.ipa"])]
             Samples.w_leftover in
  a.1 = Ok ()
  ∧ out a.2 = [ErrorExtracting "./a.ipa" (BadZipFile "cannot read member")]
  ∧ node_at (fs a.2) (resolve "temp_extracted/embedded.mobileprovision_0")
    = Some (File (Blob "p1"))
  ∧ r.1 = Ok ()
  ∧ node_at (fs r.2) (resolve "temp_extracted/embedded.mobileprovision_0")
    = Some (File (Blob "pB"))
  ∧ Forall (λ kn, kn.2 ≠ File (Blob "p1")) (map_to_list (fs r.2)).
Proof.
  vm_compute. repeat split; try reflexivity.
  repeat constructor; discriminate.
Qed.

Lemma extract_interrupted_witness :
  let w := Samples.w_ipa Samples.half_readable in
  let w1 := (extract_members Samples.half_readable_members
               (namelist Samples.half_readable_members) [] w).2 in
  extract_mobileprovision_from_ipa "./app.ipa" w
  = (Ok [], World (fs w1)
              (out w ++ [ErrorExtracting "./app.ipa"
                           (BadZipFile "cannot read member")]))
  ∧ process_file 0 Samples.rejects "." "app.ipa" w
    = (Ok (), World (fs w1)
                (out w ++ [ErrorExtracting "./app.ipa"
                             (BadZipFile "cannot read member")]))
  ∧ ∃ pre file post,
      namelist Samples.half_readable_members = pre ++ file :: post
      ∧ endswith file "embedded.mobileprovision" = true
      ∧ (extract_members Samples.half_readable_members pre [] w).1
        = Ok (expected_paths 0 (matching pre))
      ∧ (extract_one Samples.half_readable_members file
           (length (matching pre))
           (extract_members Samples.half_readable_members pre [] w).2).1
        = Raise (BadZipFile "cannot read member")
      ∧ ∀ i f, matching pre !! i = Some f →
          ∃ c, getinfo Samples.half_readable_members f = Some (Some c)
               ∧ node_at (fs w1) (resolve (extract_path i f))
                 = Some (File c).
Proof.
  intros w w1.
  assert (node_at (fs w) (resolve "./app.ipa")
          = Some (File (ZipArchive Samples.half_readable_members))) as Hzip
    by (vm_compute; reflexivity).
  assert ((extract_members Samples.half_readable_members
             (namelist Samples.half_readable_members) [] w).1
          = Raise (BadZipFile "cannot read member")) as Hloop
    by (vm_compute; reflexivity).
  destruct (extract_interrupted 0 Samples.rejects "./app.ipa" w
              Samples.half_readable_members
              (BadZipFile "cannot read member") Hzip Hloop)
    as (Hrun & Hfile & pre & file & post & Hnames & Hend & Hpre & Hstep
        & Hleft).
  split; [exact Hrun|].
  split; [apply Hfile; vm_compute; reflexivity|].
  exists pre, file, post.
  split; [exact Hnames|]. split; [exact Hend|].
  split; [exact Hpre|]. split; [exact Hstep|].
  apply Hleft; apply (bool_decide_unpack _); vm_compute; exact I.
Defined.

(** ** Runs in which something fails *)

Lemma unwraps_runs : tool_runs Samples.unwraps.
Proof.
  intros p o f. unfold Samples.unwraps.
  destruct (is_dir f (resolve o)) eqn:Hdir; simpl; [done|].
  destruct (node_at f (resolve p)) as [[[b|v|ms]|]|]; simpl; try done.
  intros _. unfold is_dir, node_at in *.
  destruct (resolve o); [done|]. by rewrite lookup_insert_eq.
Qed.

Lemma no_exception_escapes_witness :
  let junk := Samples.w_profile (Blob "junk") in
  let no_key := Samples.w_profile (PlistDoc (PDict {[ "Name" := PString "dev" ]})) in
  let no_dict := Samples.w_profile (PlistDoc (PString "dev")) in
  let check := check_expiry 100 Samples.unwraps "./a.mobileprovision" in
  ((check junk).1 = Ok ()
   ∧ out (check junk).2
     = out junk ++ [ErrorDecoding "./a.mobileprovision" "not a signed message";
                    FailedToDecode "./a.mobileprovision"])
  ∧ (∃ l, out (check no_key).2 = out no_key ++ [l]
          ∧ l = NoExpirationDate "./a.mobileprovision")
  ∧ (∃ l, out (check no_dict).2 = out no_dict ++ [l]
          ∧ ∃ e, l = ErrorProcessing "./a.mobileprovision" e)
  ∧ ((extract_mobileprovision_from_ipa "./a.mobileprovision" junk).1 = Ok []
     ∧ out (extract_mobileprovision_from_ipa "./a.mobileprovision" junk).2
       = out junk ++ [ErrorExtracting "./a.mobileprovision"
                        (BadZipFile "File is not a zip file")])
  ∧ ((extract_mobileprovision_from_ipa "./app.ipa"
        (Samples.w_ipa Samples.half_readable)).1 = Ok []
     ∧ out (extract_mobileprovision_from_ipa "./app.ipa"
              (Samples.w_ipa Samples.half_readable)).2
       = out (Samples.w_ipa Samples.half_readable)
         ++ [ErrorExtracting "./app.ipa" (BadZipFile "cannot read member")])
  ∧ ((process_file 100 Samples.unwraps "." "app.ipa"
        (Samples.w_ipa Samples.half_readable)).1 = Ok ()
     ∧ ∃ ls, out (process_file 100 Samples.unwraps "." "app.ipa"
                    (Samples.w_ipa Samples.half_readable)).2
             = out (Samples.w_ipa Samples.half_readable) ++ ls
             ∧ ls ≠ []
             ∧ ∃ paths,
                 (extract_mobileprovision_from_ipa (os_path_join "." "app.ipa")
                    (Samples.w_ipa Samples.half_readable)).1 = Ok paths
                 ∧ omap status_of ls = paths)
  ∧ ((process_file 100 Samples.unwraps "." "a.mobileprovision" junk).1 = Ok ()
     ∧ ∃ ls, out (process_file 100 Samples.unwraps "." "a.mobileprovision"
                    junk).2 = out junk ++ ls
             ∧ omap status_of ls = [os_path_join "." "a.mobileprovision"])
  ∧ ∀ walk w, returns (process_directory 100 Samples.unwraps walk) w.
Proof.
  intros junk no_key no_dict check.
  destruct (no_exception_escapes 100 Samples.unwraps unwraps_runs)
    as (Hcheck & Hextract & Hfile & Hwalk).
  split; [|split; [|split; [|split; [|split; [|split; [|split]]]]]].
  - destruct (Hcheck "./a.mobileprovision" junk) as (Hok & Hfail & _).
    split; [exact Hok|].
    apply (Hfail 1 "not a signed message"); [vm_compute; reflexivity|done].
  - destruct (Hcheck "./a.mobileprovision" no_key) as (_ & _ & Hdone).
    destruct (Hdone "") as (l & Hl & _ & Hmissing & _);
      [vm_compute; reflexivity|].
    exists l. split; [exact Hl|].
    apply (Hmissing {[ "Name" := PString "dev" ]}); vm_compute; reflexivity.
  - destruct (Hcheck "./a.mobileprovision" no_dict) as (_ & _ & Hdone).
    destruct (Hdone "") as (l & Hl & _ & _ & Hunreadable & _);
      [vm_compute; reflexivity|].
    exists l. split; [exact Hl|].
    apply Hunreadable. intros d. vm_compute. discriminate.
  - destruct (Hextract "./a.mobileprovision" junk) as (_ & Hopen & _).
    apply Hopen. vm_compute. reflexivity.
  - destruct (Hextract "./app.ipa" (Samples.w_ipa Samples.half_readable))
      as (_ & _ & Hloop).
    apply (Hloop Samples.half_readable_members); vm_compute; reflexivity.
  - destruct (Hfile "." "app.ipa" (Samples.w_ipa Samples.half_readable))
      as (Hok & ls & Hls & Hsome & _ & Hipa).
    split; [exact Hok|]. exists ls. split; [exact Hls|].
    split; [apply Hsome; vm_compute; reflexivity|].
    apply Hipa; vm_compute; reflexivity.
  - destruct (Hfile "." "a.mobileprovision" junk)
      as (Hok & ls & Hls & _ & Hprofile & _).
    split; [exact Hok|]. exists ls. split; [exact Hls|].
    apply Hprofile. vm_compute. reflexivity.
  - exact Hwalk.
Defined.

(** A member name that passes through a directory that does not exist
    beside the scratch directory: the kernel cannot take the second [..],
    the move fails, and the profile beside the scratch directory stays
    where it is. *)
Example source_through_missing_directory :
  let r := extract_mobileprovision_from_ipa "./app.ipa" Samples.w_no_way in
  r.1 = Ok []
  ∧ out r.2 = [ErrorExtracting "./app.ipa" (FileNotFoundError "")]
  ∧ node_at (fs r.2) ["embedded.mobileprovision"] = Some (File (Blob "mine"))
  ∧ node_at (fs r.2) ["temp_extracted"; "x"; "embedded.mobileprovision"]
    = Some (File (Blob "theirs")).
Proof. vm_compute. repeat split; reflexivity. Qed.

(** The member that cannot be read leaves an empty file where it was
    being extracted. *)
Example unreadable_member_leaves_empty_file :
  let r := extract_mobileprovision_from_ipa "./app.ipa"
             (Samples.w_ipa Samples.half_readable) in
  r.1 = Ok []
  ∧ node_at (fs r.2)
      ["temp_extracted"; "Payload"; "A.app"; "PlugIns"; "B.appex";
       "embedded.mobileprovision"] = Some (File (Blob "")).
Proof. vm_compute. split; reflexivity. Qed.
